(** * Authentication service of the instagram clone server

    A shallow embedding of [server/src/services/auth.ts]: the four flows
    [login], [register], [refreshToken] and [githubData] (with [githubToken]),
    run against a relational [users] table, a token codec (jsonwebtoken), a
    password hasher (bcrypt) and the GitHub REST API (axios).

    Each [async] function becomes a computation in the monad [Flow], which
    threads the database through the calls and carries the value a promise
    resolves with or the exception it rejects with. *)

From Stdlib Require Import ZArith Ascii DecimalString.
From stdpp Require Import gmap strings list fin_maps pretty.

Open Scope string_scope.
Open Scope Z_scope.

(** ** JavaScript values and objects *)

(** The values that occur in rows and results. An object is a finite map from
    property names to values: a property is absent when the lookup is [None],
    and present with value [null] when it is [Some JNull]. *)
#[warnings="-register-all"]
Inductive JsVal : Type :=
| JNull
| JNum (z : Z)
| JStr (s : string)
| JObj (o : gmap string JsVal).

Definition opt_val {A : Type} (f : A → JsVal) (o : option A) : JsVal :=
  match o with Some a => f a | None => JNull end.

(** ** Exceptions *)

(** What [jwt.verify] throws: [TokenExpiredError] when the [exp] claim has
    passed, [JsonWebTokenError] for a malformed token or a bad signature. *)
Inductive VerifyError : Type :=
| JsonWebTokenError (message : string)
| TokenExpiredError (expiredAt : Z).

(** Everything a flow can reject with. [AppError] is the application's own
    class, carrying the HTTP status; the others are thrown by the libraries
    or by the runtime and are not instances of it. *)
Inductive Thrown : Type :=
| AppError (statusCode : Z) (message : string)
| JwtThrown (e : VerifyError)
| TypeError (message : string)
| Error (message : string)
| AxiosError (status : Z)
| DuplicateKey (constraint : string).

Definition is_AppError (status : Z) (t : Thrown) : Prop :=
  ∃ message, t = AppError status message.

(** ** The users table *)

Record User : Type := mkUser {
  u_id : Z;
  u_name : string;
  u_email : string;
  u_password : option string;
  u_githubId : option Z;
  u_token_version : Z
}.

#[global] Instance User_eq_dec : EqDecision User.
Proof. solve_decision. Defined.

(** The table and the sequence its [id] column draws from. Rows are kept in
    insertion order; a [select] returns the matching rows in that order. *)
Record Store : Type := mkStore {
  users : list User;
  users_id_seq : Z
}.

(** A row as knex hands it over: a plain object with one property per
    column, [null] where the column is NULL. *)
Definition row_object (u : User) : gmap string JsVal :=
  <["id" := JNum (u_id u)]>
  (<["name" := JStr (u_name u)]>
  (<["email" := JStr (u_email u)]>
  (<["password" := opt_val JStr (u_password u)]>
  (<["githubId" := opt_val JNum (u_githubId u)]>
  (<["token_version" := JNum (u_token_version u)]> ∅))))).

(** [const { password: omit, ...rest } = user] *)
Definition omit_password (user : gmap string JsVal) : gmap string JsVal :=
  delete "password" user.

(** ** The monad of the flows *)

Inductive Outcome (A : Type) : Type :=
| Resolved (a : A)
| Rejected (e : Thrown).
Arguments Resolved {A} a.
Arguments Rejected {A} e.

Definition Flow (A : Type) : Type := Store → Outcome A * Store.

#[global] Instance Flow_ret : MRet Flow := λ A a st, (Resolved a, st).

#[global] Instance Flow_bind : MBind Flow := λ A B f m st,
  match m st with
  | (Resolved a, st') => f a st'
  | (Rejected e, st') => (Rejected e, st')
  end.

Definition throw {A : Type} (e : Thrown) : Flow A := λ st, (Rejected e, st).

(** What an [axios] request comes to: the response data, or a failure with
    the status of the response (the promise rejects with an [AxiosError]). *)
Inductive AxiosResult (A : Type) : Type :=
| Fulfilled (data : A)
| RequestFailed (status : Z).
Arguments Fulfilled {A} data.
Arguments RequestFailed {A} status.

Definition axios {A : Type} (r : AxiosResult A) : Thrown + A :=
  match r with
  | Fulfilled data => inr data
  | RequestFailed status => inl (AxiosError status)
  end.

(** A library call that may throw and does not touch the database. *)
Definition lift {A : Type} (r : Thrown + A) : Flow A :=
  match r with
  | inl e => throw e
  | inr a => mret a
  end.

(** ** Database access (knex) *)

(** [db("users").select().where({ email })] *)
Definition select_where_email (email : string) : Flow (list User) := λ st,
  (Resolved (filter (λ u, u_email u = email) (users st)), st).

(** [db("users").select().where({ name })] *)
Definition select_where_name (name : string) : Flow (list User) := λ st,
  (Resolved (filter (λ u, u_name u = name) (users st)), st).

(** [db("users").select().where({ githubId: id })] *)
Definition select_where_githubId (id : Z) : Flow (list User) := λ st,
  (Resolved (filter (λ u, u_githubId u = Some id) (users st)), st).

(** [db("users").select().where({ id, token_version })] *)
Definition select_where_id_version (id version : Z) : Flow (list User) := λ st,
  (Resolved (filter (λ u, u_id u = id ∧ u_token_version u = version) (users st)), st).

(** The columns an [insert] supplies; a column left out is NULL. *)
Record InsertFields : Type := mkFields {
  f_name : string;
  f_email : string;
  f_password : option string;
  f_githubId : option Z
}.

Definition email_taken (email : string) (st : Store) : Prop :=
  Exists (λ u, u_email u = email) (users st).
Definition name_taken (name : string) (st : Store) : Prop :=
  Exists (λ u, u_name u = name) (users st).
Definition githubId_taken (gid : option Z) (st : Store) : Prop :=
  Exists (λ u, is_Some gid ∧ u_githubId u = gid) (users st).

(** Modelled from the spec: the schema of the [users] table (its migration)
    is not among the sources. The spec gives the store-assigned numeric id
    and the token version that starts at 0; a column the insert leaves out
    is NULL. *)
Definition fresh_row (f : InsertFields) (st : Store) : User :=
  {| u_id := users_id_seq st;
     u_name := f_name f;
     u_email := f_email f;
     u_password := f_password f;
     u_githubId := f_githubId f;
     u_token_version := 0 |}.

(** The table with one more row, the sequence moved on. *)
Definition with_row (u : User) (st : Store) : Store :=
  {| users := users st ++ [u]; users_id_seq := users_id_seq st + 1 |}.

(** Modelled from the spec: uniqueness of email, name and (when set)
    provider id is enforced by the storage layer, which answers a violation
    with a duplicate-key failure and leaves the table as it was.
    [db("users").insert(fields, "*")] resolves with the inserted row. *)
Definition db_insert (f : InsertFields) : Flow (list User) := λ st,
  if decide (email_taken (f_email f) st) then
    (Rejected (DuplicateKey "users_email_unique"), st)
  else if decide (name_taken (f_name f) st) then
    (Rejected (DuplicateKey "users_name_unique"), st)
  else if decide (githubId_taken (f_githubId f) st) then
    (Rejected (DuplicateKey "users_githubid_unique"), st)
  else
    let row := fresh_row f st in
    (Resolved [row], with_row row st).

(** ** Libraries, configuration and the outside world *)

(** [{ userId, tokenVersion }], the payload of both tokens. *)
Record payloadProps : Type := mkPayload {
  userId : Z;
  tokenVersion : Z
}.

(** The token codec and the native part of the password hasher. The flows
    are verified for every implementation of this interface.
    - [jwt_sign payload secret expiresIn now] is [jwt.sign(payload, secret,
      { expiresIn })] evaluated at clock time [now];
    - [jwt_verify token secret now] is the synchronous [jwt.verify(token,
      secret)], which returns the payload or throws;
    - [hash_native data rounds salt] and [compare_native data hash] are the
      bindings behind [bcrypt.hash] and [bcrypt.compare]. *)
Record Libs : Type := mkLibs {
  jwt_sign : payloadProps → string → string → Z → string;
  jwt_verify : string → string → Z → VerifyError + payloadProps;
  hash_native : string → Z → string → string;
  compare_native : string → string → bool
}.

(** [bcrypt.hash(data, rounds)]; the salt is drawn by the library. *)
Definition bcrypt_hash (L : Libs) (data : string) (rounds : Z) (salt : string) : string :=
  hash_native L data rounds salt.

(** [bcrypt.compare(data, hash)]. The library's wrapper rejects the promise
    when the hash is [null] or [undefined], before the native comparison. *)
Definition bcrypt_compare (L : Libs) (data : string) (hash : option string) : Thrown + bool :=
  match hash with
  | None => inl (Error "data and hash arguments required")
  | Some h => inr (compare_native L data h)
  end.

(** [process.env] *)
Record ProcessEnv : Type := mkEnv {
  REFRESH_TOKEN_SECRET : string;
  REFRESH_TOKEN_EXPIRATION : string;
  ACCESS_TOKEN_SECRET : string;
  ACCESS_TOKEN_EXPIRATION : string;
  GITHUB_CLIENT_ID : string;
  GITHUB_CLIENT_SECRET : string
}.

Record EmailProps : Type := mkEmail {
  email : string;
  primary : bool;
  verified : bool;
  visibility : string
}.

(** The part of [githubUser.data] that is read. *)
Record GithubUser : Type := mkGithubUser {
  id : Z;
  login_name : string
}.

(** What a call observes outside the process: the clock in seconds, as
    jsonwebtoken reads it, the salt bcrypt draws, and the answers of GitHub
    to the three requests ([axios] throws when a request fails). *)
Record World : Type := mkWorld {
  Date_now : Z;
  gen_salt : string;
  post_access_token : string → string → string → AxiosResult (option string);
  get_user_emails : string → AxiosResult (list EmailProps);
  get_user : string → AxiosResult GithubUser
}.

(** ** The flows *)

Record loginArgs : Type := mkLoginArgs {
  login_email : string;
  login_password : string
}.

Record RegisterArgs : Type := mkRegisterArgs {
  reg_name : string;
  reg_email : string;
  reg_password : string;
  reg_confirmPassword : string
}.

(** [{ user, refreshToken, accessToken }] *)
Definition auth_result (user : gmap string JsVal) (refreshToken accessToken : string)
  : gmap string JsVal :=
  <["user" := JObj user]>
  (<["refreshToken" := JStr refreshToken]>
  (<["accessToken" := JStr accessToken]> ∅)).

Section Flows.
Context (L : Libs) (env : ProcessEnv) (w : World).

Definition sign_refresh (payload : payloadProps) : string :=
  jwt_sign L payload (REFRESH_TOKEN_SECRET env) (REFRESH_TOKEN_EXPIRATION env) (Date_now w).

Definition sign_access (payload : payloadProps) : string :=
  jwt_sign L payload (ACCESS_TOKEN_SECRET env) (ACCESS_TOKEN_EXPIRATION env) (Date_now w).

Definition login (data : loginArgs) : Flow (gmap string JsVal) :=
  userWithEmail ← select_where_email (login_email data);
  match userWithEmail with
  | [] => throw (AppError 404 "User with given e-mail address not found.")
  | user :: _ =>
      matched ← lift (bcrypt_compare L (login_password data) (u_password user));
      if negb matched then throw (AppError 401 "Invalid password.")
      else
        let payload := {| userId := u_id user; tokenVersion := u_token_version user |} in
        let refreshToken := sign_refresh payload in
        let accessToken := sign_access payload in
        let rest := omit_password (row_object user) in
        mret (auth_result rest refreshToken accessToken)
  end.

Definition register (data : RegisterArgs) : Flow (gmap string JsVal) :=
  userWithEmail ← select_where_email (reg_email data);
  if negb (bool_decide (userWithEmail = [])) then
    throw (AppError 422 "E-mail address is already taken.")
  else
    userWithName ← select_where_name (reg_name data);
    if negb (bool_decide (userWithName = [])) then
      throw (AppError 422 "Name is already taken.")
    else
      let hashedPassword := bcrypt_hash L (reg_password data) 12 (gen_salt w) in
      newUser ← db_insert {| f_name := reg_name data;
                             f_email := reg_email data;
                             f_password := Some hashedPassword;
                             f_githubId := None |};
      match newUser with
      | [] => throw (TypeError "Cannot read properties of undefined (reading 'id')")
      | user :: _ =>
          let payload := {| userId := u_id user; tokenVersion := u_token_version user |} in
          let refreshToken := sign_refresh payload in
          let accessToken := sign_access payload in
          let rest := omit_password (row_object user) in
          mret (auth_result rest refreshToken accessToken)
      end.

Definition refreshToken (refreshToken : string) : Flow (gmap string JsVal) :=
  payload ← lift (match jwt_verify L refreshToken (REFRESH_TOKEN_SECRET env) (Date_now w) with
                  | inl e => inl (JwtThrown e)
                  | inr p => inr p
                  end);
  userExists ← select_where_id_version (userId payload) (tokenVersion payload);
  match userExists with
  | [] => throw (AppError 401 "Refresh token is invalid.")
  | user :: _ =>
      let newPayload := {| userId := u_id user; tokenVersion := u_token_version user |} in
      let accessToken := sign_access newPayload in
      mret (<["accessToken" := JStr accessToken]> ∅)
  end.

(** [response.data.access_token] is [None] when the property is missing;
    [!response.data.access_token] also holds for the empty string. *)
Definition githubToken (code : string) : Flow (gmap string JsVal) :=
  access_token ← lift (axios (post_access_token w (GITHUB_CLIENT_ID env)
                                (GITHUB_CLIENT_SECRET env) code));
  match access_token with
  | None => throw (AppError 401 "Invalid code.")
  | Some t =>
      if bool_decide (t = "") then throw (AppError 401 "Invalid code.")
      else mret (<["githubAccessToken" := JStr t]> ∅)
  end.

Definition githubData (githubAccessToken : string) : Flow (gmap string JsVal) :=
  githubEmail ← lift (axios (get_user_emails w githubAccessToken));
  match find primary githubEmail with
  | None => throw (TypeError "Cannot destructure property 'email' of 'githubEmail.data.find(...)' as it is undefined.")
  | Some primaryEmail =>
      let email := email primaryEmail in
      githubUser ← lift (axios (get_user w githubAccessToken));
      let id := id githubUser in
      let login := login_name githubUser in
      userId ← select_where_githubId id;
      match userId with
      | user :: _ =>
          let payload := {| userId := u_id user; tokenVersion := u_token_version user |} in
          let refreshToken := sign_refresh payload in
          let accessToken := sign_access payload in
          let rest := omit_password (row_object user) in
          mret (auth_result rest refreshToken accessToken)
      | [] =>
          userWithEmail ← select_where_email email;
          if negb (bool_decide (userWithEmail = [])) then
            throw (AppError 422 "E-mail address is already taken.")
          else
            userWithName ← select_where_name login;
            if negb (bool_decide (userWithName = [])) then
              throw (AppError 422 "Name is already taken.")
            else
              newUser ← db_insert {| f_name := login;
                                     f_email := email;
                                     f_password := None;
                                     f_githubId := Some id |};
              match newUser with
              | [] => throw (TypeError "Cannot read properties of undefined (reading 'id')")
              | user :: _ =>
                  let payload := {| userId := u_id user; tokenVersion := u_token_version user |} in
                  let refreshToken := sign_refresh payload in
                  let accessToken := sign_access payload in
                  mret (auth_result (row_object user) refreshToken accessToken)
              end
      end
  end.

(** The two existence checks and the insert that [register] and the signup
    branch of [githubData] have in common, as one function of the table:
    [register_unfold] and [githubData_unfold] show that the flows compute
    it. [strip] tells whether the password is omitted from the returned
    user. *)
Definition signup (strip : bool) (f : InsertFields) (st : Store)
  : Outcome (gmap string JsVal) * Store :=
  if decide (email_taken (f_email f) st) then
    (Rejected (AppError 422 "E-mail address is already taken."), st)
  else if decide (name_taken (f_name f) st) then
    (Rejected (AppError 422 "Name is already taken."), st)
  else
    let user := fresh_row f st in
    let payload := {| userId := u_id user; tokenVersion := u_token_version user |} in
    (Resolved (auth_result (if strip then omit_password (row_object user) else row_object user)
                 (sign_refresh payload) (sign_access payload)),
     with_row user st).

End Flows.

(** ** A reference implementation of the libraries

    An executable codec and hasher with the observable behaviour of the real
    ones, so that the flows can be run on concrete inputs. A token is the
    text [secret.userId.tokenVersion.exp]; a hash is [$2b$rounds$salt$data].
    Neither is meant to be secure: the theorems below hold for every
    [Libs]. Clock values are seconds. *)
Module Reference.

Fixpoint split_on (sep : Ascii.ascii) (s : string) : list string :=
  match s with
  | EmptyString => [""]
  | String c s' =>
      if Ascii.eqb c sep then "" :: split_on sep s'
      else match split_on sep s' with
           | [] => [String c ""]
           | x :: xs => String c x :: xs
           end
  end.

Definition parse_Z (s : string) : option Z :=
  match s with
  | EmptyString => None
  | _ => Z.of_int <$> NilZero.int_of_string s
  end.

(** The span the [ms] package reads from a string: a bare number counts
    milliseconds, a unit letter scales it. The result is in seconds. *)
Definition timespan (expiresIn : string) : Z :=
  match parse_Z expiresIn with
  | Some ms => ms `div` 1000
  | None =>
      let n := String.length expiresIn in
      match parse_Z (String.substring 0 (Nat.pred n) expiresIn), String.substring (Nat.pred n) 1 expiresIn with
      | Some k, "s" => k
      | Some k, "m" => 60 * k
      | Some k, "h" => 3600 * k
      | Some k, "d" => 86400 * k
      | _, _ => 0
      end
  end.

Definition sign (payload : payloadProps) (secret expiresIn : string) (now : Z) : string :=
  secret +:+ "." +:+ pretty (userId payload) +:+ "." +:+ pretty (tokenVersion payload)
         +:+ "." +:+ pretty (now + timespan expiresIn).

Definition verify (token secret : string) (now : Z) : VerifyError + payloadProps :=
  match split_on "."%char token with
  | [sig; uid; ver; exp] =>
      match parse_Z uid, parse_Z ver, parse_Z exp with
      | Some u, Some v, Some e =>
          if negb (String.eqb sig secret) then inl (JsonWebTokenError "invalid signature")
          else if Z.leb e now then inl (TokenExpiredError e)
          else inr {| userId := u; tokenVersion := v |}
      | _, _, _ => inl (JsonWebTokenError "jwt malformed")
      end
  | _ => inl (JsonWebTokenError "jwt malformed")
  end.

Definition hash (data : string) (rounds : Z) (salt : string) : string :=
  "$2b$" +:+ pretty rounds +:+ "$" +:+ salt +:+ "$" +:+ data.

Definition compare (data hashed : string) : bool :=
  match split_on "$"%char hashed with
  | _ :: _ :: rounds :: salt :: _ =>
      match parse_Z rounds with
      | Some r => String.eqb (hash data r salt) hashed
      | None => false
      end
  | _ => false
  end.

Definition libs : Libs :=
  {| jwt_sign := sign; jwt_verify := verify;
     hash_native := hash; compare_native := compare |}.

Definition env : ProcessEnv :=
  {| REFRESH_TOKEN_SECRET := "refresh-secret";
     REFRESH_TOKEN_EXPIRATION := "7d";
     ACCESS_TOKEN_SECRET := "access-secret";
     ACCESS_TOKEN_EXPIRATION := "15m";
     GITHUB_CLIENT_ID := "client";
     GITHUB_CLIENT_SECRET := "client-secret" |}.

(** Two accounts: ana registered with a password, octo came through GitHub
    and has none. *)
Definition ana : User :=
  {| u_id := 1; u_name := "ana"; u_email := "a@x.com";
     u_password := Some (hash "Secret1!" 12 "salt");
     u_githubId := None; u_token_version := 0 |}.

Definition octo : User :=
  {| u_id := 2; u_name := "octo"; u_email := "o@x.com";
     u_password := None; u_githubId := Some 42; u_token_version := 0 |}.

Definition store : Store := {| users := [ana; octo]; users_id_seq := 3 |}.

(** GitHub as the examples see it: the token "gh-octo" belongs to octo,
    "gh-new" to a user the table has not seen, "gh-hidden" to an account
    none of whose e-mail addresses is flagged primary, and "gh-clash" to a
    new account whose primary address is ana's and whose login is octo's
    name. *)
Definition world (now : Z) : World :=
  {| Date_now := now;
     gen_salt := "salt";
     post_access_token := λ _ _ code,
       Fulfilled (if String.eqb code "good-code" then Some "gh-new" else None);
     get_user_emails := λ t,
       if String.eqb t "gh-octo" then
         Fulfilled [mkEmail "o@x.com" true true "public"]
       else if String.eqb t "gh-new" then
         Fulfilled [mkEmail "old@y.org" false true "private";
                    mkEmail "new@y.org" true true "public"]
       else if String.eqb t "gh-hidden" then
         Fulfilled [mkEmail "h@y.org" false true "private"]
       else if String.eqb t "gh-clash" then
         Fulfilled [mkEmail "a@x.com" true true "public"]
       else RequestFailed 401;
     get_user := λ t,
       if String.eqb t "gh-octo" then Fulfilled (mkGithubUser 42 "octo")
       else if String.eqb t "gh-new" then Fulfilled (mkGithubUser 77 "newcomer")
       else if String.eqb t "gh-hidden" then Fulfilled (mkGithubUser 78 "hidden")
       else if String.eqb t "gh-clash" then Fulfilled (mkGithubUser 99 "octo")
       else RequestFailed 401 |}.

(** ana's refresh token, issued at time 1000 for seven days, and an access
    token of hers from the same moment. *)
Definition ana_refresh_token : string :=
  sign {| userId := 1; tokenVersion := 0 |} "refresh-secret" "7d" 1000.

Definition ana_access_token : string :=
  sign {| userId := 1; tokenVersion := 0 |} "access-secret" "15m" 1000.

End Reference.


(** ** The store invariant and sequences of requests *)

(** email is unique, name is unique, and the GitHub id is unique among the
    rows that have one. *)
Definition store_inv (st : Store) : Prop :=
  NoDup (u_email <$> users st) ∧
  NoDup (u_name <$> users st) ∧
  NoDup (omap u_githubId (users st)).

Inductive Request : Type :=
| ReqLogin (data : loginArgs)
| ReqRegister (data : RegisterArgs)
| ReqRefresh (token : string)
| ReqGithubData (githubAccessToken : string).

Definition serve (L : Libs) (env : ProcessEnv) (w : World) (r : Request)
  : Flow (gmap string JsVal) :=
  match r with
  | ReqLogin data => login L env w data
  | ReqRegister data => register L env w data
  | ReqRefresh token => refreshToken L env w token
  | ReqGithubData t => githubData L env w t
  end.

(** Requests served one after the other, each in the world of its moment;
    the outcomes go to the callers, the table goes on to the next request. *)
Fixpoint run (L : Libs) (env : ProcessEnv) (reqs : list (World * Request)) (st : Store) : Store :=
  match reqs with
  | [] => st
  | (w, r) :: reqs' => run L env reqs' (snd (serve L env w r st))
  end.

(** Modelled from the spec: the token-version bump is an invalidation event
    raised outside [services/auth.ts]; it increments the counter of the rows
    with the given id. *)
Definition bump_token_version (uid : Z) (st : Store) : Store :=
  {| users := (λ u, if decide (u_id u = uid)
                    then {| u_id := u_id u; u_name := u_name u; u_email := u_email u;
                            u_password := u_password u; u_githubId := u_githubId u;
                            u_token_version := u_token_version u + 1 |}
                    else u) <$> users st;
     users_id_seq := users_id_seq st |}.

(** [set_verified v e] is [e] with its [verified] flag replaced. *)
Definition set_verified (v : bool) (e : EmailProps) : EmailProps :=
  {| email := email e; primary := primary e; verified := v; visibility := visibility e |}.

(** * Properties *)

(** ** The reference libraries at work *)

Example reference_token_roundtrip :
  Reference.verify Reference.ana_refresh_token "refresh-secret" 5000
  = inr {| userId := 1; tokenVersion := 0 |}.
Proof. vm_compute. reflexivity. Qed.

Example reference_token_wrong_domain :
  Reference.verify Reference.ana_refresh_token "access-secret" 5000
  = inl (JsonWebTokenError "invalid signature").
Proof. vm_compute. reflexivity. Qed.

Example reference_compare :
  Reference.compare "Secret1!" (Reference.hash "Secret1!" 12 "salt") = true ∧
  Reference.compare "Secret2!" (Reference.hash "Secret1!" 12 "salt") = false.
Proof. split; vm_compute; reflexivity. Qed.

(** Registration on an empty table: the user comes back without the
    password, with token version 0, next to the two tokens. *)
Example register_ana :
  ∃ o user,
    fst (register Reference.libs Reference.env (Reference.world 1000)
           (mkRegisterArgs "ana" "a@x.com" "Secret1!" "Secret1!")
           {| users := []; users_id_seq := 1 |}) = Resolved o ∧
    o !! "user" = Some (JObj user) ∧
    user !! "password" = None ∧
    user !! "token_version" = Some (JNum 0) ∧
    o !! "refreshToken" = Some (JStr "refresh-secret.1.0.605800") ∧
    o !! "accessToken" = Some (JStr "access-secret.1.0.1900").
Proof.
  eexists (auth_result (omit_password (row_object
             {| u_id := 1; u_name := "ana"; u_email := "a@x.com";
                u_password := Some "$2b$12$salt$Secret1!";
                u_githubId := None; u_token_version := 0 |}))
             "refresh-secret.1.0.605800" "access-secret.1.0.1900"), _.
  split_and!; [vm_compute; reflexivity|by unfold auth_result; simplify_map_eq|..];
    try (vm_compute; reflexivity).
Qed.

(** ** Selections *)

Lemma filter_nil_iff {A} (P : A → Prop) `{!∀ x, Decision (P x)} (l : list A) :
  filter P l = [] ↔ ¬ ∃ x, x ∈ l ∧ P x.
Proof.
  split.
  - intros Hnil [x [Hx HP]].
    assert (Hin : x ∈ filter P l) by (apply list_elem_of_filter; auto).
    rewrite Hnil in Hin. by apply not_elem_of_nil in Hin.
  - intros Hno. destruct (filter P l) as [|y l'] eqn:E; [done|].
    exfalso. apply Hno. exists y.
    assert (Hin : y ∈ filter P l) by (rewrite E; left).
    apply list_elem_of_filter in Hin. tauto.
Qed.

Lemma filter_head_elem {A} (P : A → Prop) `{!∀ x, Decision (P x)} (l : list A) x l' :
  filter P l = x :: l' → x ∈ l ∧ P x.
Proof.
  intros E. assert (Hin : x ∈ filter P l) by (rewrite E; left).
  apply list_elem_of_filter in Hin. tauto.
Qed.

(** With a unique key, a selection on the key returns the row that has it. *)
Lemma filter_unique_key {A K} `{EqDecision K} (key : A → K) (l : list A) (x : A) :
  NoDup (key <$> l) → x ∈ l → filter (λ y, key y = key x) l = [x].
Proof.
  induction l as [|a l IH]; intros Hnd Hin.
  - by apply not_elem_of_nil in Hin.
  - rewrite fmap_cons in Hnd. apply NoDup_cons in Hnd as [Hfresh Hnd].
    rewrite filter_cons. apply elem_of_cons in Hin as [->|Hin].
    + rewrite decide_True by done. f_equal.
      apply filter_nil_iff. intros [y [Hy Hk]].
      apply Hfresh. rewrite <- Hk. apply list_elem_of_fmap. eauto.
    + rewrite decide_False; [by apply IH|].
      intros Hk. apply Hfresh. rewrite Hk. apply list_elem_of_fmap. eauto.
Qed.

Lemma email_taken_filter (e : string) (st : Store) :
  email_taken e st ↔ filter (λ u, u_email u = e) (users st) ≠ [].
Proof.
  unfold email_taken. rewrite Exists_exists. split.
  - intros Hex Hnil. by apply filter_nil_iff in Hnil.
  - destruct (filter _ _) as [|x l'] eqn:E; [done|]. intros _.
    apply filter_head_elem in E. eauto.
Qed.

Lemma name_taken_filter (n : string) (st : Store) :
  name_taken n st ↔ filter (λ u, u_name u = n) (users st) ≠ [].
Proof.
  unfold name_taken. rewrite Exists_exists. split.
  - intros Hex Hnil. by apply filter_nil_iff in Hnil.
  - destruct (filter _ _) as [|x l'] eqn:E; [done|]. intros _.
    apply filter_head_elem in E. eauto.
Qed.

(** ** The flows, step by step *)

Ltac run_flow :=
  unfold lift, throw, mbind, Flow_bind, mret, Flow_ret,
    select_where_email, select_where_name, select_where_githubId,
    select_where_id_version; cbn beta iota.

Section FlowEquations.
Context (L : Libs) (env : ProcessEnv) (w : World).

Lemma login_unfold (data : loginArgs) (st : Store) :
  login L env w data st =
  match filter (λ u, u_email u = login_email data) (users st) with
  | [] => (Rejected (AppError 404 "User with given e-mail address not found."), st)
  | user :: _ =>
      match bcrypt_compare L (login_password data) (u_password user) with
      | inl e => (Rejected e, st)
      | inr false => (Rejected (AppError 401 "Invalid password."), st)
      | inr true =>
          let payload := {| userId := u_id user; tokenVersion := u_token_version user |} in
          (Resolved (auth_result (omit_password (row_object user))
                       (sign_refresh L env w payload) (sign_access L env w payload)), st)
      end
  end.
Proof.
  unfold login. run_flow.
  destruct (filter _ _) as [|user rest]; [done|].
  destruct (bcrypt_compare _ _ _) as [e|[|]]; done.
Qed.

Lemma refreshToken_unfold (token : string) (st : Store) :
  refreshToken L env w token st =
  match jwt_verify L token (REFRESH_TOKEN_SECRET env) (Date_now w) with
  | inl e => (Rejected (JwtThrown e), st)
  | inr payload =>
      match filter (λ u, u_id u = userId payload ∧ u_token_version u = tokenVersion payload)
                   (users st) with
      | [] => (Rejected (AppError 401 "Refresh token is invalid."), st)
      | user :: _ =>
          (Resolved (<["accessToken" :=
                        JStr (sign_access L env w
                                {| userId := u_id user; tokenVersion := u_token_version user |})]> ∅),
           st)
      end
  end.
Proof.
  unfold refreshToken. run_flow.
  destruct (jwt_verify _ _ _ _) as [e|payload]; [done|].
  by destruct (filter _ _).
Qed.

Lemma db_insert_accepted (f : InsertFields) (st : Store) :
  ¬ email_taken (f_email f) st → ¬ name_taken (f_name f) st →
  ¬ githubId_taken (f_githubId f) st →
  db_insert f st = (Resolved [fresh_row f st], with_row (fresh_row f st) st).
Proof.
  intros He Hn Hg. unfold db_insert.
  rewrite !decide_False by done. reflexivity.
Qed.

Lemma githubId_null_free (st : Store) : ¬ githubId_taken None st.
Proof.
  unfold githubId_taken. rewrite Exists_exists.
  intros [u [_ [[x Hx] _]]]. discriminate.
Qed.

Lemma githubId_unbound_free (gid : Z) (st : Store) :
  filter (λ u, u_githubId u = Some gid) (users st) = [] → ¬ githubId_taken (Some gid) st.
Proof.
  intros Hnil. unfold githubId_taken. rewrite Exists_exists.
  intros [u [Hin [_ Hu]]]. apply filter_nil_iff in Hnil. apply Hnil. eauto.
Qed.

Lemma register_unfold (data : RegisterArgs) (st : Store) :
  register L env w data st =
  signup L env w true {| f_name := reg_name data; f_email := reg_email data;
                 f_password := Some (bcrypt_hash L (reg_password data) 12 (gen_salt w));
                 f_githubId := None |} st.
Proof.
  unfold register, signup. run_flow. cbn [f_email f_name].
  destruct (decide (email_taken _ _)) as [He|He].
  { apply email_taken_filter in He. by rewrite bool_decide_false. }
  assert (He' := He). rewrite email_taken_filter in He'. apply dec_stable in He'.
  rewrite bool_decide_true by done. cbn.
  destruct (decide (name_taken _ _)) as [Hn|Hn].
  { apply name_taken_filter in Hn. by rewrite bool_decide_false. }
  assert (Hn' := Hn). rewrite name_taken_filter in Hn'. apply dec_stable in Hn'.
  rewrite bool_decide_true by done. cbn.
  rewrite db_insert_accepted; [done|done|done|apply githubId_null_free].
Qed.

Lemma githubData_unfold (githubAccessToken : string) (st : Store) :
  githubData L env w githubAccessToken st =
  match get_user_emails w githubAccessToken with
  | RequestFailed status => (Rejected (AxiosError status), st)
  | Fulfilled emails =>
      match find primary emails with
      | None => (Rejected (TypeError "Cannot destructure property 'email' of 'githubEmail.data.find(...)' as it is undefined."), st)
      | Some primaryEmail =>
          match get_user w githubAccessToken with
          | RequestFailed status => (Rejected (AxiosError status), st)
          | Fulfilled githubUser =>
              match filter (λ u, u_githubId u = Some (id githubUser)) (users st) with
              | user :: _ =>
                  let payload := {| userId := u_id user; tokenVersion := u_token_version user |} in
                  (Resolved (auth_result (omit_password (row_object user))
                               (sign_refresh L env w payload) (sign_access L env w payload)), st)
              | [] =>
                  signup L env w false {| f_name := login_name githubUser;
                                  f_email := email primaryEmail;
                                  f_password := None;
                                  f_githubId := Some (id githubUser) |} st
              end
          end
      end
  end.
Proof.
  unfold githubData, signup. run_flow. cbn [f_email f_name].
  destruct (get_user_emails _ _) as [emails|status]; [|done]. cbn [axios].
  destruct (find _ _) as [primaryEmail|]; [|done].
  destruct (get_user _ _) as [githubUser|status]; [|done]. cbn [axios].
  destruct (filter (λ u, u_githubId u = _) _) as [|user rest] eqn:Hbound; [|done].
  destruct (decide (email_taken _ _)) as [He|He].
  { apply email_taken_filter in He. by rewrite bool_decide_false. }
  assert (He' := He). rewrite email_taken_filter in He'. apply dec_stable in He'.
  rewrite bool_decide_true by done. cbn.
  destruct (decide (name_taken _ _)) as [Hn|Hn].
  { apply name_taken_filter in Hn. by rewrite bool_decide_false. }
  assert (Hn' := Hn). rewrite name_taken_filter in Hn'. apply dec_stable in Hn'.
  rewrite bool_decide_true by done. cbn.
  rewrite db_insert_accepted; [done|done|done|by apply githubId_unbound_free].
Qed.

End FlowEquations.

(** ** login *)

(** C8. On a table with unique e-mail addresses, [login] fails with the
    404 AppError exactly when no stored user has the given e-mail address,
    and with the 401 AppError exactly when such a user exists and comparing
    the password with the stored hash returns false; the two failures carry
    different status codes, so no outcome is both. *)
Theorem login_not_found_vs_invalid_credential
    (L : Libs) (env : ProcessEnv) (w : World) (data : loginArgs) (st : Store) :
  NoDup (u_email <$> users st) →
  let outcome := fst (login L env w data st) in
  ((∃ e, outcome = Rejected e ∧ is_AppError 404 e)
     ↔ ¬ ∃ u, u ∈ users st ∧ u_email u = login_email data) ∧
  ((∃ e, outcome = Rejected e ∧ is_AppError 401 e)
     ↔ ∃ u, u ∈ users st ∧ u_email u = login_email data ∧
            bcrypt_compare L (login_password data) (u_password u) = inr false) ∧
  (∀ e, is_AppError 404 e → is_AppError 401 e → False).
Proof.
  intros Huniq outcome. subst outcome. rewrite login_unfold.
  destruct (filter _ _) as [|user rest] eqn:Hsel.
  - apply filter_nil_iff in Hsel. cbn. split_and!.
    + split; [done|]. intros _. eexists. split; [done|]. by eexists.
    + split.
      * intros [e [[= <-] [m [=]]]].
      * intros [u [Hin [He _]]]. exfalso. apply Hsel. eauto.
    + intros e [m ->] [m' [=]].
  - assert (Huser := Hsel). apply filter_head_elem in Huser as [Hin Hemail].
    assert (Honly : ∀ u, u ∈ users st → u_email u = login_email data → u = user).
    { intros u Hu He.
      pose proof (filter_unique_key u_email (users st) u Huniq Hu) as Hu1.
      rewrite He in Hu1. rewrite Hsel in Hu1. by injection Hu1. }
    split_and!.
    + split.
      * intros [e [Hout [m ->]]]. exfalso.
        destruct (bcrypt_compare _ _ _) as [e'|[|]] eqn:Hcmp; cbn in Hout; try discriminate.
        unfold bcrypt_compare in Hcmp. destruct (u_password user); [discriminate|].
        injection Hcmp as <-. discriminate.
      * intros Hno. exfalso. apply Hno. eauto.
    + split.
      * intros [e [Hout [m ->]]]. exists user. split_and!; [done..|].
        destruct (bcrypt_compare _ _ _) as [e'|[|]] eqn:Hcmp; cbn in Hout; try discriminate; [|done].
        unfold bcrypt_compare in Hcmp. destruct (u_password user); [discriminate|].
        injection Hcmp as <-. discriminate.
      * intros [u [Hu [He Hcmp]]]. apply Honly in Hu as ->; [|done].
        rewrite Hcmp. cbn. eexists. split; [done|]. by eexists.
    + intros e [m ->] [m' [=]].
Qed.

(** Witness for C8: ana's table, a wrong password and an unknown address. *)
Lemma login_not_found_vs_invalid_credential_witness :
  NoDup (u_email <$> users Reference.store) ∧
  (∃ e, fst (login Reference.libs Reference.env (Reference.world 1000)
               (mkLoginArgs "nobody@x.com" "Secret1!") Reference.store) = Rejected e
        ∧ is_AppError 404 e) ∧
  (∃ e, fst (login Reference.libs Reference.env (Reference.world 1000)
               (mkLoginArgs "a@x.com" "Secret2!") Reference.store) = Rejected e
        ∧ is_AppError 401 e).
Proof.
  assert (Huniq : NoDup (u_email <$> users Reference.store)).
  { apply (bool_decide_unpack _). vm_compute. exact I. }
  split; [exact Huniq|]. split.
  - apply (login_not_found_vs_invalid_credential Reference.libs Reference.env
             (Reference.world 1000) (mkLoginArgs "nobody@x.com" "Secret1!")
             Reference.store Huniq).
    cbn. intros [u [Hin He]].
    repeat (apply elem_of_cons in Hin as [->|Hin]; [discriminate|]).
    by apply not_elem_of_nil in Hin.
  - apply (login_not_found_vs_invalid_credential Reference.libs Reference.env
             (Reference.world 1000) (mkLoginArgs "a@x.com" "Secret2!")
             Reference.store Huniq).
    exists Reference.ana. split_and!; [left|reflexivity|reflexivity].
Defined.

Lemma auth_result_user (user : gmap string JsVal) (r a : string) :
  auth_result user r a !! "user" = Some (JObj user).
Proof. unfold auth_result. by rewrite lookup_insert_eq. Qed.

Lemma omit_password_absent (user : gmap string JsVal) :
  omit_password user !! "password" = None.
Proof. apply lookup_delete_eq. Qed.

Lemma row_object_password (u : User) :
  row_object u !! "password" = Some (opt_val JStr (u_password u)).
Proof. unfold row_object. by simplify_map_eq. Qed.

(** A stored user without a password: the comparison is handed [null] for
    the hash, and its rejection leaves [login] as it is. *)
Lemma login_without_password
    (L : Libs) (env : ProcessEnv) (w : World) (data : loginArgs) (st : Store)
    (user : User) (rest : list User) :
  filter (λ u, u_email u = login_email data) (users st) = user :: rest →
  u_password user = None →
  login L env w data st = (Rejected (Error "data and hash arguments required"), st).
Proof. intros Hsel Hnull. rewrite login_unfold, Hsel, Hnull. reflexivity. Qed.

(** C2. The claim asks for the 401 AppError when the account has no
    password. On the reference table, octo has none: [login] rejects with
    the plain [Error] of [bcrypt.compare], which is no AppError at all. *)
Theorem login_federation_only_account_throws :
  login Reference.libs Reference.env (Reference.world 1000)
        (mkLoginArgs "o@x.com" "Secret1!") Reference.store
  = (Rejected (Error "data and hash arguments required"), Reference.store)
  ∧ ∀ status, ¬ is_AppError status (Error "data and hash arguments required").
Proof.
  split.
  - by apply (login_without_password _ _ _ _ _ Reference.octo []).
  - intros status [m [=]].
Qed.

(** The three places that omit the password before returning the user. *)
Lemma stripped_user_has_no_password
    (L : Libs) (env : ProcessEnv) (w : World) (st : Store) (o : gmap string JsVal) :
  (∀ data, fst (login L env w data st) = Resolved o →
     ∃ user, o !! "user" = Some (JObj user) ∧ user !! "password" = None) ∧
  (∀ data, fst (register L env w data st) = Resolved o →
     ∃ user, o !! "user" = Some (JObj user) ∧ user !! "password" = None) ∧
  (∀ t emails githubUser,
     get_user_emails w t = Fulfilled emails → get_user w t = Fulfilled githubUser →
     filter (λ u, u_githubId u = Some (id githubUser)) (users st) ≠ [] →
     fst (githubData L env w t st) = Resolved o →
     ∃ user, o !! "user" = Some (JObj user) ∧ user !! "password" = None).
Proof.
  split_and!.
  - intros data. rewrite login_unfold.
    destruct (filter _ _) as [|user rest]; [done|].
    destruct (bcrypt_compare _ _ _) as [e|[|]]; [done| |done].
    cbn. intros [= <-]. eexists. split; [apply auth_result_user|apply omit_password_absent].
  - intros data. rewrite register_unfold. unfold signup.
    repeat case_decide; [done..|].
    cbn. intros [= <-]. eexists. split; [apply auth_result_user|apply omit_password_absent].
  - intros t emails githubUser Hemails Huser Hbound.
    rewrite githubData_unfold, Hemails, Huser.
    destruct (find _ _); [|done].
    destruct (filter _ _) as [|user rest]; [done|].
    cbn. intros [= <-]. eexists. split; [apply auth_result_user|apply omit_password_absent].
Qed.

(** First-time federation returns the inserted row as it is: the password
    property is there, with value [null]. *)
Lemma signup_branch_keeps_password
    (L : Libs) (env : ProcessEnv) (w : World) (st : Store) (t : string)
    (emails : list EmailProps) (githubUser : GithubUser) (o : gmap string JsVal) :
  get_user_emails w t = Fulfilled emails → get_user w t = Fulfilled githubUser →
  filter (λ u, u_githubId u = Some (id githubUser)) (users st) = [] →
  fst (githubData L env w t st) = Resolved o →
  ∃ user, o !! "user" = Some (JObj user) ∧ user !! "password" = Some JNull.
Proof.
  intros Hemails Huser Hbound.
  rewrite githubData_unfold, Hemails, Huser, Hbound.
  destruct (find _ _); [|done]. unfold signup.
  repeat case_decide; [done..|].
  cbn. intros [= <-]. eexists. split; [apply auth_result_user|apply row_object_password].
Qed.

(** C3. The claim asks for a user object without the password property in
    every flow. A first login through GitHub on the reference table resolves
    with a user object whose password property is present and [null]. *)
Theorem githubData_signup_returns_password_field :
  ∃ o user,
    fst (githubData Reference.libs Reference.env (Reference.world 1000) "gh-new"
           Reference.store) = Resolved o ∧
    o !! "user" = Some (JObj user) ∧
    user !! "password" = Some JNull ∧
    user !! "password" ≠ None.
Proof.
  pose (newcomer := {| u_id := 3; u_name := "newcomer"; u_email := "new@y.org";
                       u_password := None; u_githubId := Some 77; u_token_version := 0 |}).
  pose (payload := {| userId := 3; tokenVersion := 0 |}).
  exists (auth_result (row_object newcomer)
            (sign_refresh Reference.libs Reference.env (Reference.world 1000) payload)
            (sign_access Reference.libs Reference.env (Reference.world 1000) payload)),
         (row_object newcomer).
  split_and!.
  - vm_compute. reflexivity.
  - apply auth_result_user.
  - apply row_object_password.
  - by rewrite row_object_password.
Qed.

(** ** refreshToken *)

(** C1, as the claim states it, fails at a well-formed refresh token whose
    seven days have passed: the codec reports the expiry, and [refreshToken]
    rejects with that [TokenExpiredError] itself, not with a 401 AppError. *)
Lemma refresh_expired_is_not_unauthorized :
  jwt_verify Reference.libs Reference.ana_refresh_token
    (REFRESH_TOKEN_SECRET Reference.env) (Date_now (Reference.world 2000000))
    = inl (TokenExpiredError 605800) ∧
  fst (refreshToken Reference.libs Reference.env (Reference.world 2000000)
         Reference.ana_refresh_token Reference.store)
    = Rejected (JwtThrown (TokenExpiredError 605800)) ∧
  ¬ ∃ e, fst (refreshToken Reference.libs Reference.env (Reference.world 2000000)
                Reference.ana_refresh_token Reference.store) = Rejected e
         ∧ is_AppError 401 e.
Proof.
  split_and!.
  - vm_compute. reflexivity.
  - vm_compute. reflexivity.
  - intros [e [Hout [m ->]]]. vm_compute in Hout. discriminate.
Qed.

(** C1, amended. When verification of the refresh token against the refresh
    secret fails, for a bad signature or an elapsed lifetime alike,
    [refreshToken] rejects with the codec's own error, unchanged; it resolves
    with no access token, and the table is neither read nor written. *)
Theorem refresh_verification_failure_propagates
    (L : Libs) (env : ProcessEnv) (w : World) (token : string) (st : Store)
    (e : VerifyError) :
  jwt_verify L token (REFRESH_TOKEN_SECRET env) (Date_now w) = inl e →
  refreshToken L env w token st = (Rejected (JwtThrown e), st) ∧
  (∀ o, fst (refreshToken L env w token st) ≠ Resolved o) ∧
  (∀ st', fst (refreshToken L env w token st') = Rejected (JwtThrown e)).
Proof.
  intros Hverify. split_and!.
  - by rewrite refreshToken_unfold, Hverify.
  - intros o. by rewrite refreshToken_unfold, Hverify.
  - intros st'. by rewrite refreshToken_unfold, Hverify.
Qed.

(** Witness for C1: a token signed with the access secret, presented as a
    refresh token. *)
Lemma refresh_verification_failure_propagates_witness :
  refreshToken Reference.libs Reference.env (Reference.world 1200)
    Reference.ana_access_token Reference.store
  = (Rejected (JwtThrown (JsonWebTokenError "invalid signature")), Reference.store).
Proof.
  apply (refresh_verification_failure_propagates Reference.libs Reference.env
           (Reference.world 1200) Reference.ana_access_token Reference.store
           (JsonWebTokenError "invalid signature")).
  vm_compute. reflexivity.
Defined.

(** C4. [refreshToken] resolves exactly when the token verifies and the
    table holds a user with the payload's id and the payload's token version;
    when the token verifies and no such user is there, it rejects with the
    401 AppError. Hence, once the stored version of a user is incremented,
    every token whose version snapshot is at most the version stored before
    (every token issued until then) is rejected with the 401 AppError. *)
Theorem refresh_iff_id_and_version_match
    (L : Libs) (env : ProcessEnv) (w : World) (token : string) (st : Store) :
  let verified := jwt_verify L token (REFRESH_TOKEN_SECRET env) (Date_now w) in
  let current (p : payloadProps) (s : Store) :=
    ∃ u, u ∈ users s ∧ u_id u = userId p ∧ u_token_version u = tokenVersion p in
  ((∃ o, fst (refreshToken L env w token st) = Resolved o)
     ↔ ∃ p, verified = inr p ∧ current p st) ∧
  (∀ p, verified = inr p → ¬ current p st →
     refreshToken L env w token st = (Rejected (AppError 401 "Refresh token is invalid."), st)) ∧
  (∀ p, verified = inr p →
     (∀ u, u ∈ users st → u_id u = userId p → tokenVersion p ≤ u_token_version u) →
     fst (refreshToken L env w token (bump_token_version (userId p) st))
       = Rejected (AppError 401 "Refresh token is invalid.")).
Proof.
  intros verified current. subst verified current. cbv beta.
  assert (Hstale : ∀ p s, jwt_verify L token (REFRESH_TOKEN_SECRET env) (Date_now w) = inr p →
            ¬ (∃ u, u ∈ users s ∧ u_id u = userId p ∧ u_token_version u = tokenVersion p) →
            refreshToken L env w token s
              = (Rejected (AppError 401 "Refresh token is invalid."), s)).
  { intros p s Hverify Hno. rewrite refreshToken_unfold, Hverify.
    destruct (filter _ _) as [|user rest] eqn:Hsel; [done|].
    apply filter_head_elem in Hsel. exfalso. apply Hno. exists user. tauto. }
  split_and!.
  - rewrite refreshToken_unfold. split.
    + intros [o Hout].
      destruct (jwt_verify _ _ _ _) as [e|p]; [done|].
      destruct (filter _ _) as [|user rest] eqn:Hsel; [done|].
      apply filter_head_elem in Hsel. exists p. split; [done|]. exists user. tauto.
    + intros [p [-> [u [Hin [Hid Hver]]]]].
      destruct (filter _ _) as [|user rest] eqn:Hsel; [|by eexists].
      apply filter_nil_iff in Hsel. exfalso. apply Hsel. eauto.
  - exact (λ p, Hstale p st).
  - intros p Hverify Hissued. rewrite (Hstale p); [done..|].
    intros [u' [Hin [Hid Hver]]]. cbn in Hin.
    apply list_elem_of_fmap in Hin as [u [-> Hu]].
    destruct (decide (u_id u = userId p)) as [Heq|Hne]; cbn in Hid, Hver.
    + specialize (Hissued u Hu Heq). lia.
    + done.
Qed.

(** Witness for C4: ana's refresh token is honoured, and is refused once
    her token version has been incremented. *)
Lemma refresh_iff_id_and_version_match_witness :
  (∃ o, fst (refreshToken Reference.libs Reference.env (Reference.world 5000)
               Reference.ana_refresh_token Reference.store) = Resolved o) ∧
  fst (refreshToken Reference.libs Reference.env (Reference.world 5000)
         Reference.ana_refresh_token (bump_token_version 1 Reference.store))
    = Rejected (AppError 401 "Refresh token is invalid.").
Proof.
  pose proof (refresh_iff_id_and_version_match Reference.libs Reference.env
                (Reference.world 5000) Reference.ana_refresh_token Reference.store)
    as [Hiff [_ Hbump]].
  split.
  - apply Hiff. exists {| userId := 1; tokenVersion := 0 |}.
    split; [vm_compute; reflexivity|].
    exists Reference.ana. split_and!; [left|reflexivity|reflexivity].
  - apply (Hbump {| userId := 1; tokenVersion := 0 |}); [vm_compute; reflexivity|].
    intros u Hin Hid. cbn in Hin.
    apply elem_of_cons in Hin as [->|Hin]; [cbn; lia|].
    apply elem_of_cons in Hin as [->|Hin]; [discriminate|].
    by apply not_elem_of_nil in Hin.
Defined.

(** C9. When [refreshToken] resolves, the result is the object with the one
    property [accessToken], holding a token signed now with the access
    secret for the selected user's id and token version; there is no
    [refreshToken] property, and the table is unchanged. *)
Theorem refresh_returns_access_token_only
    (L : Libs) (env : ProcessEnv) (w : World) (token : string) (st : Store)
    (o : gmap string JsVal) :
  fst (refreshToken L env w token st) = Resolved o →
  (∃ p user,
     jwt_verify L token (REFRESH_TOKEN_SECRET env) (Date_now w) = inr p ∧
     user ∈ users st ∧ u_id user = userId p ∧ u_token_version user = tokenVersion p ∧
     o = {[ "accessToken" :=
              JStr (jwt_sign L {| userId := u_id user; tokenVersion := u_token_version user |}
                      (ACCESS_TOKEN_SECRET env) (ACCESS_TOKEN_EXPIRATION env) (Date_now w)) ]}) ∧
  dom o = {[ "accessToken" ]} ∧
  o !! "refreshToken" = None ∧
  snd (refreshToken L env w token st) = st.
Proof.
  rewrite refreshToken_unfold.
  destruct (jwt_verify _ _ _ _) as [e|p]; [done|].
  destruct (filter _ _) as [|user rest] eqn:Hsel; [done|].
  apply filter_head_elem in Hsel as [Hin [Hid Hver]].
  cbn. intros [= <-]. split_and!.
  - exists p, user. split_and!; done.
  - rewrite dom_insert_L, dom_empty_L. set_solver.
  - by simplify_map_eq.
  - done.
Qed.

(** Witness for C9: ana's refresh token, presented within its lifetime. *)
Lemma refresh_returns_access_token_only_witness :
  fst (refreshToken Reference.libs Reference.env (Reference.world 5000)
         Reference.ana_refresh_token Reference.store)
    = Resolved {[ "accessToken" := JStr "access-secret.1.0.5900" ]} ∧
  dom ({[ "accessToken" := JStr "access-secret.1.0.5900" ]} : gmap string JsVal)
    = {[ "accessToken" ]} ∧
  ({[ "accessToken" := JStr "access-secret.1.0.5900" ]} : gmap string JsVal)
    !! "refreshToken" = None.
Proof.
  assert (Hrun : fst (refreshToken Reference.libs Reference.env (Reference.world 5000)
                        Reference.ana_refresh_token Reference.store)
                 = Resolved {[ "accessToken" := JStr "access-secret.1.0.5900" ]}).
  { vm_compute. reflexivity. }
  split; [exact Hrun|].
  destruct (refresh_returns_access_token_only _ _ _ _ _ _ Hrun) as [_ [Hdom [Hnone _]]].
  split; [exact Hdom|exact Hnone].
Defined.

(** ** register and githubData: conflicts *)

(** C5. In [register] and in the signup branch of [githubData], the e-mail
    address is looked up first and the name second. A taken e-mail address is
    reported as the e-mail conflict whatever the name, so also when the name
    is taken as well; the name conflict is reported only when the e-mail
    address is free. *)
Theorem email_conflict_precedes_name_conflict
    (L : Libs) (env : ProcessEnv) (w : World) (st : Store) :
  (∀ data, email_taken (reg_email data) st →
     fst (register L env w data st)
       = Rejected (AppError 422 "E-mail address is already taken.")) ∧
  (∀ data, ¬ email_taken (reg_email data) st → name_taken (reg_name data) st →
     fst (register L env w data st)
       = Rejected (AppError 422 "Name is already taken.")) ∧
  (∀ t emails primaryEmail githubUser,
     get_user_emails w t = Fulfilled emails → find primary emails = Some primaryEmail →
     get_user w t = Fulfilled githubUser →
     filter (λ u, u_githubId u = Some (id githubUser)) (users st) = [] →
     (email_taken (email primaryEmail) st →
        fst (githubData L env w t st)
          = Rejected (AppError 422 "E-mail address is already taken.")) ∧
     (¬ email_taken (email primaryEmail) st → name_taken (login_name githubUser) st →
        fst (githubData L env w t st)
          = Rejected (AppError 422 "Name is already taken."))).
Proof.
  split_and!.
  - intros data He. rewrite register_unfold. unfold signup. cbn [f_email].
    by rewrite decide_True.
  - intros data He Hn. rewrite register_unfold. unfold signup. cbn [f_email f_name].
    rewrite decide_False by done. by rewrite decide_True.
  - intros t emails primaryEmail githubUser Hemails Hfind Huser Hbound.
    rewrite githubData_unfold, Hemails, Hfind, Huser, Hbound.
    unfold signup. cbn [f_email f_name]. split.
    + intros He. by rewrite decide_True.
    + intros He Hn. rewrite decide_False by done. by rewrite decide_True.
Qed.

(** Witness for C5: a registration and a first GitHub login that collide
    with ana on the e-mail address and with octo on the name. *)
Lemma email_conflict_precedes_name_conflict_witness :
  email_taken "a@x.com" Reference.store ∧ name_taken "octo" Reference.store ∧
  fst (register Reference.libs Reference.env (Reference.world 1000)
         (mkRegisterArgs "octo" "a@x.com" "pw" "pw") Reference.store)
    = Rejected (AppError 422 "E-mail address is already taken.") ∧
  fst (register Reference.libs Reference.env (Reference.world 1000)
         (mkRegisterArgs "octo" "free@x.com" "pw" "pw") Reference.store)
    = Rejected (AppError 422 "Name is already taken.") ∧
  fst (githubData Reference.libs Reference.env (Reference.world 1000) "gh-clash"
         Reference.store)
    = Rejected (AppError 422 "E-mail address is already taken.").
Proof.
  assert (He : email_taken "a@x.com" Reference.store) by (left; reflexivity).
  assert (Hn : name_taken "octo" Reference.store) by (right; left; reflexivity).
  assert (Hfree : ¬ email_taken "free@x.com" Reference.store).
  { apply (bool_decide_unpack _). vm_compute. exact I. }
  pose proof (email_conflict_precedes_name_conflict Reference.libs Reference.env
                (Reference.world 1000) Reference.store) as [Hemail [Hname Hgithub]].
  split_and!; [exact He|exact Hn| | |].
  - exact (Hemail (mkRegisterArgs "octo" "a@x.com" "pw" "pw") He).
  - exact (Hname (mkRegisterArgs "octo" "free@x.com" "pw" "pw") Hfree Hn).
  - apply (Hgithub "gh-clash" [mkEmail "a@x.com" true true "public"]
             (mkEmail "a@x.com" true true "public") (mkGithubUser 99 "octo"));
      [reflexivity..|exact He].
Defined.

(** A flow that rejects has not written to the table. *)
Lemma rejection_leaves_store
    (L : Libs) (env : ProcessEnv) (w : World) (r : Request) (st : Store) (e : Thrown) :
  fst (serve L env w r st) = Rejected e → snd (serve L env w r st) = st.
Proof.
  destruct r as [data|data|token|t]; cbn [serve].
  - rewrite login_unfold.
    destruct (filter _ _) as [|user rest]; [done|].
    by destruct (bcrypt_compare _ _ _) as [e'|[|]].
  - rewrite register_unfold. unfold signup. by repeat case_decide.
  - rewrite refreshToken_unfold.
    destruct (jwt_verify _ _ _ _) as [e'|p]; [done|].
    by destruct (filter _ _).
  - rewrite githubData_unfold.
    destruct (get_user_emails _ _) as [emails|status]; [|done].
    destruct (find _ _); [|done].
    destruct (get_user _ _) as [githubUser|status]; [|done].
    destruct (filter _ _); [|done].
    unfold signup. by repeat case_decide.
Qed.

(** C6. When [register] or [githubData] rejects with the 422 AppError, for
    the e-mail address or for the name, the table afterwards is the table
    before: no row added, none changed. *)
Theorem conflict_leaves_store_unchanged
    (L : Libs) (env : ProcessEnv) (w : World) (st : Store) (e : Thrown) :
  is_AppError 422 e →
  (∀ data, fst (register L env w data st) = Rejected e →
     snd (register L env w data st) = st) ∧
  (∀ t, fst (githubData L env w t st) = Rejected e →
     snd (githubData L env w t st) = st).
Proof.
  intros _. split.
  - intros data. apply (rejection_leaves_store L env w (ReqRegister data)).
  - intros t. apply (rejection_leaves_store L env w (ReqGithubData t)).
Qed.

(** Witness for C6: registering with ana's e-mail address, and a first
    GitHub login whose primary address is ana's. *)
Lemma conflict_leaves_store_unchanged_witness :
  is_AppError 422 (AppError 422 "E-mail address is already taken.") ∧
  register Reference.libs Reference.env (Reference.world 1000)
    (mkRegisterArgs "ann" "a@x.com" "pw" "pw") Reference.store
    = (Rejected (AppError 422 "E-mail address is already taken."), Reference.store) ∧
  githubData Reference.libs Reference.env (Reference.world 1000) "gh-clash" Reference.store
    = (Rejected (AppError 422 "E-mail address is already taken."), Reference.store).
Proof.
  assert (H422 : is_AppError 422 (AppError 422 "E-mail address is already taken."))
    by (by eexists).
  split; [exact H422|].
  pose proof (conflict_leaves_store_unchanged Reference.libs Reference.env
                (Reference.world 1000) Reference.store _ H422) as [Hreg Hgh].
  split.
  - apply injective_projections; [vm_compute; reflexivity|].
    apply Hreg. vm_compute. reflexivity.
  - apply injective_projections; [vm_compute; reflexivity|].
    apply Hgh. vm_compute. reflexivity.
Defined.

(** ** The store invariant *)

Lemma not_taken_fresh {K} (key : User → K) (k : K) (l : list User) :
  ¬ Exists (λ u, key u = k) l → k ∉ key <$> l.
Proof.
  intros Hno Hin. apply Hno. apply Exists_exists.
  apply list_elem_of_fmap in Hin as [u [-> Hu]]. eauto.
Qed.

Lemma NoDup_snoc_fresh {K} (l : list K) (k : K) :
  NoDup l → k ∉ l → NoDup (l ++ [k]).
Proof.
  intros Hnd Hfresh. apply NoDup_app. split_and!; [done| |apply NoDup_singleton].
  intros x Hx Hk. apply list_elem_of_singleton in Hk as ->. done.
Qed.

(** Adding a row whose e-mail address, name and GitHub id are not in the
    table keeps the three columns unique. *)
Lemma with_row_inv (f : InsertFields) (st : Store) :
  store_inv st →
  ¬ email_taken (f_email f) st → ¬ name_taken (f_name f) st →
  ¬ githubId_taken (f_githubId f) st →
  store_inv (with_row (fresh_row f st) st).
Proof.
  intros (He & Hn & Hg) Hemail Hname Hgid. unfold store_inv, with_row. cbn [users].
  rewrite !fmap_app, omap_app. cbn. split_and!.
  - apply NoDup_snoc_fresh; [done|]. by apply not_taken_fresh.
  - apply NoDup_snoc_fresh; [done|]. by apply not_taken_fresh.
  - destruct (f_githubId f) as [gid|] eqn:Hf; cbn; [|by rewrite app_nil_r].
    apply NoDup_snoc_fresh; [done|].
    intros Hin. apply Hgid. apply Exists_exists.
    apply list_elem_of_omap in Hin as [u [Hu Hk]]. exists u. eauto.
Qed.

(** A request either leaves the table alone or adds one row that passed the
    three uniqueness checks; the duplicate-key failure of the storage layer
    is never met when requests are served one at a time. *)
Lemma serve_store (L : Libs) (env : ProcessEnv) (w : World) (r : Request) (st : Store) :
  snd (serve L env w r st) = st ∨
  ∃ f, ¬ email_taken (f_email f) st ∧ ¬ name_taken (f_name f) st ∧
       ¬ githubId_taken (f_githubId f) st ∧
       snd (serve L env w r st) = with_row (fresh_row f st) st.
Proof.
  destruct r as [data|data|token|t]; cbn [serve].
  - left. rewrite login_unfold.
    destruct (filter _ _) as [|user rest]; [done|].
    by destruct (bcrypt_compare _ _ _) as [e'|[|]].
  - rewrite register_unfold. unfold signup.
    repeat case_decide; [by left..|].
    right. eexists. split_and!; [done|done| |done]. apply githubId_null_free.
  - left. rewrite refreshToken_unfold.
    destruct (jwt_verify _ _ _ _) as [e'|p]; [done|].
    by destruct (filter _ _).
  - rewrite githubData_unfold.
    destruct (get_user_emails _ _) as [emails|status]; [|by left].
    destruct (find _ _); [|by left].
    destruct (get_user _ _) as [githubUser|status]; [|by left].
    destruct (filter _ _) eqn:Hbound; [|by left].
    unfold signup. repeat case_decide; [by left..|].
    right. eexists. split_and!; [done|done| |done]. by apply githubId_unbound_free.
Qed.

Lemma serve_never_duplicate_key
    (L : Libs) (env : ProcessEnv) (w : World) (r : Request) (st : Store) (c : string) :
  fst (serve L env w r st) ≠ Rejected (DuplicateKey c).
Proof.
  destruct r as [data|data|token|t]; cbn [serve].
  - rewrite login_unfold.
    destruct (filter _ _) as [|user rest]; [done|].
    unfold bcrypt_compare. destruct (u_password user); [|done].
    by destruct (compare_native _ _ _).
  - rewrite register_unfold. unfold signup. by repeat case_decide.
  - rewrite refreshToken_unfold.
    destruct (jwt_verify _ _ _ _) as [e'|p]; [done|].
    by destruct (filter _ _).
  - rewrite githubData_unfold.
    destruct (get_user_emails _ _) as [emails|status]; [|done].
    destruct (find _ _); [|done].
    destruct (get_user _ _) as [githubUser|status]; [|done].
    destruct (filter _ _); [|done].
    unfold signup. by repeat case_decide.
Qed.

(** C7. Every request served from a table in which e-mail addresses, names
    and non-null GitHub ids are unique leaves such a table; so does every
    sequence of requests served one after the other. *)
Theorem store_invariant_preserved
    (L : Libs) (env : ProcessEnv) (reqs : list (World * Request)) (st : Store) :
  store_inv st → store_inv (run L env reqs st).
Proof.
  revert st. induction reqs as [|[w r] reqs IH]; intros st Hinv; [done|].
  cbn [run]. apply IH.
  destruct (serve_store L env w r st) as [->|(f & He & Hn & Hg & ->)]; [done|].
  by apply with_row_inv.
Qed.

(** Witness for C7: a registration, a login, a first GitHub login, the same
    once more, and a refresh, from the reference table. *)
Lemma store_invariant_preserved_witness :
  store_inv Reference.store ∧
  store_inv (run Reference.libs Reference.env
               [(Reference.world 1000, ReqRegister (mkRegisterArgs "bob" "b@x.com" "pw" "pw"));
                (Reference.world 1100, ReqLogin (mkLoginArgs "b@x.com" "pw"));
                (Reference.world 1200, ReqGithubData "gh-new");
                (Reference.world 1300, ReqGithubData "gh-new");
                (Reference.world 1400, ReqRefresh Reference.ana_refresh_token)]
               Reference.store).
Proof.
  assert (Hinv : store_inv Reference.store).
  { unfold store_inv. split_and!; apply (bool_decide_unpack _); vm_compute; exact I. }
  split; [exact Hinv|].
  apply (store_invariant_preserved Reference.libs Reference.env _ Reference.store Hinv).
Defined.

(** ** githubData: the primary e-mail address *)

Lemma find_primary_none (emails : list EmailProps) :
  find primary emails = None ↔ ∀ e, e ∈ emails → primary e = false.
Proof.
  induction emails as [|a emails IH]; cbn.
  - split; [|done]. intros _ e He. by apply not_elem_of_nil in He.
  - destruct (primary a) eqn:Ha.
    + split; [done|]. intros Hall. rewrite Hall in Ha; [done|left].
    + rewrite IH. split.
      * intros Hall e He. apply elem_of_cons in He as [->|He]; auto.
      * intros Hall e He. apply Hall. by right.
Qed.

Lemma find_primary_some (emails : list EmailProps) (e : EmailProps) :
  find primary emails = Some e → e ∈ emails ∧ primary e = true.
Proof.
  intros Hfind. apply find_some in Hfind as [Hin Hp].
  by apply list_elem_of_In in Hin.
Qed.

(** The selection reads the [primary] flag and hands back the address; the
    [verified] flag has no part in it. *)
Lemma find_primary_set_verified (v : bool) (emails : list EmailProps) :
  email <$> find primary (set_verified v <$> emails) = email <$> find primary emails.
Proof.
  induction emails as [|a emails IH]; [done|].
  cbn. by destruct (primary a).
Qed.

(** C10. When GitHub's list of e-mail addresses has no entry flagged
    primary, [githubData] rejects with the TypeError of the failed
    destructuring, whatever the table holds and without touching it, and not
    with an AppError. Conversely a call that resolves had a primary entry in
    the list. The [verified] flags play no part: two worlds whose lists
    differ in them only make [githubData] behave alike. *)
Theorem githubData_requires_primary_email
    (L : Libs) (env : ProcessEnv) (w : World) (t : string) (emails : list EmailProps) :
  get_user_emails w t = Fulfilled emails →
  ((∀ e, e ∈ emails → primary e = false) →
     ∀ st, githubData L env w t st
           = (Rejected (TypeError "Cannot destructure property 'email' of 'githubEmail.data.find(...)' as it is undefined."), st)) ∧
  (∀ status m, TypeError m ≠ AppError status m) ∧
  (∀ st o, fst (githubData L env w t st) = Resolved o →
     ∃ e, e ∈ emails ∧ primary e = true) ∧
  (∀ w' emails',
     get_user_emails w' t = Fulfilled emails' →
     set_verified false <$> emails' = set_verified false <$> emails →
     get_user w' t = get_user w t → Date_now w' = Date_now w →
     ∀ st, githubData L env w' t st = githubData L env w t st).
Proof.
  intros Hemails. split_and!.
  - intros Hnone st. apply find_primary_none in Hnone.
    by rewrite githubData_unfold, Hemails, Hnone.
  - done.
  - intros st o. rewrite githubData_unfold, Hemails.
    destruct (find primary emails) as [e|] eqn:Hfind; [|done].
    intros _. exists e. by apply find_primary_some.
  - intros w' emails' Hemails' Hsame Huser Hnow st.
    rewrite !githubData_unfold, Hemails, Hemails', Huser.
    assert (Hfind : email <$> find primary emails' = email <$> find primary emails).
    { rewrite <- (find_primary_set_verified false emails'), Hsame.
      apply find_primary_set_verified. }
    destruct (find primary emails') as [e'|], (find primary emails) as [e|];
      try discriminate; [|done].
    injection Hfind as Hfind.
    unfold signup, sign_refresh, sign_access. rewrite Hfind, Hnow. reflexivity.
Qed.

(** Witness for C10: the account behind "gh-hidden" has one address, not
    primary; "gh-new" has a primary one and is signed up. *)
Lemma githubData_requires_primary_email_witness :
  get_user_emails (Reference.world 1000) "gh-hidden"
    = Fulfilled [mkEmail "h@y.org" false true "private"] ∧
  githubData Reference.libs Reference.env (Reference.world 1000) "gh-hidden" Reference.store
    = (Rejected (TypeError "Cannot destructure property 'email' of 'githubEmail.data.find(...)' as it is undefined."),
       Reference.store).
Proof.
  split; [reflexivity|].
  destruct (githubData_requires_primary_email Reference.libs Reference.env
              (Reference.world 1000) "gh-hidden"
              [mkEmail "h@y.org" false true "private"] eq_refl) as [Hthrow _].
  apply Hthrow. intros e He.
  apply list_elem_of_singleton in He as ->. reflexivity.
Defined.

(** * Further properties of the flows *)

(** ** githubToken *)

(** X1. [githubToken] never touches the table. It resolves exactly when
    GitHub's answer carries a non-empty access token, and then with the object
    whose one property [githubAccessToken] is that token; an answer without
    the property, or with the empty string for it, is the 401 AppError, and a
    failed request surfaces as the AxiosError it is. *)
Theorem githubToken_outcomes
    (env : ProcessEnv) (w : World) (code : string) (st : Store) :
  let answer := post_access_token w (GITHUB_CLIENT_ID env) (GITHUB_CLIENT_SECRET env) code in
  snd (githubToken env w code st) = st ∧
  (∀ o, fst (githubToken env w code st) = Resolved o
        ↔ ∃ t, answer = Fulfilled (Some t) ∧ t ≠ "" ∧ o = {[ "githubAccessToken" := JStr t ]}) ∧
  (answer = Fulfilled None ∨ answer = Fulfilled (Some "")
     → fst (githubToken env w code st) = Rejected (AppError 401 "Invalid code.")) ∧
  (∀ status, answer = RequestFailed status
     → fst (githubToken env w code st) = Rejected (AxiosError status)).
Proof.
  intros answer. subst answer. unfold githubToken. run_flow.
  destruct (post_access_token _ _ _ _) as [[t|]|status]; cbn [axios].
  - destruct (decide (t = "")) as [->|Hne].
    + rewrite bool_decide_true by done. split_and!; [done| |done|done].
      intros o. split; [done|]. intros [t [[= <-] [Hne _]]]. done.
    + rewrite bool_decide_false by done. split_and!; [done| | |done].
      * intros o. split.
        -- intros [= <-]. by exists t.
        -- intros [t' [[= <-] [_ ->]]]. done.
      * intros [[=]|[= ->]]. done.
  - split_and!; [done| |done|done].
    intros o. split; [done|]. by intros [t [[=] _]].
  - split_and!; [done| | |by intros status' [= <-]].
    + intros o. split; [done|]. by intros [t [[=] _]].
    + by intros [[=]|[=]].
Qed.

(** Witness for X1: the code GitHub accepts, and one it does not. *)
Lemma githubToken_outcomes_witness :
  fst (githubToken Reference.env (Reference.world 1000) "good-code"
         Reference.store) = Resolved {[ "githubAccessToken" := JStr "gh-new" ]} ∧
  fst (githubToken Reference.env (Reference.world 1000) "stale-code"
         Reference.store) = Rejected (AppError 401 "Invalid code.").
Proof.
  split.
  - apply (githubToken_outcomes Reference.env (Reference.world 1000)
             "good-code" Reference.store).
    exists "gh-new". split_and!; [reflexivity|discriminate|reflexivity].
  - apply (githubToken_outcomes Reference.env (Reference.world 1000)
             "stale-code" Reference.store).
    left. reflexivity.
Defined.

(** ** login and register *)

Lemma filter_snoc_only {A} (P : A → Prop) `{!∀ x, Decision (P x)} (l : list A) (x : A) :
  filter P l = [] → P x → filter P (l ++ [x])%list = [x].
Proof.
  intros Hnil HP. rewrite filter_app, Hnil, filter_cons, decide_True by done. done.
Qed.

Lemma filter_snoc_other {A} (P : A → Prop) `{!∀ x, Decision (P x)} (l : list A) (x : A) :
  ¬ P x → filter P (l ++ [x])%list = filter P l.
Proof.
  intros HP. rewrite filter_app, filter_cons, decide_False by done.
  apply app_nil_r.
Qed.

Lemma email_free_filter (e : string) (st : Store) :
  ¬ email_taken e st → filter (λ u, u_email u = e) (users st) = [].
Proof.
  intros Hfree. destruct (filter _ _) eqn:Hsel; [done|].
  exfalso. apply Hfree, email_taken_filter. by rewrite Hsel.
Qed.

Lemma login_leaves_store
    (L : Libs) (env : ProcessEnv) (w : World) (data : loginArgs) (st : Store) :
  snd (login L env w data st) = st.
Proof.
  rewrite login_unfold. destruct (filter _ _) as [|user rest]; [done|].
  by destruct (bcrypt_compare _ _ _) as [e|[|]].
Qed.

(** X2. [login] never writes to the table. On a table with unique e-mail
    addresses it resolves exactly when a stored user has the given address,
    has a password hash, and the comparison with that hash returns true; the
    result then carries that user without the password property, and a
    refresh and an access token both signed now over the user's id and
    current token version, each with its own secret and lifetime. *)
Theorem login_resolves_iff
    (L : Libs) (env : ProcessEnv) (w : World) (data : loginArgs) (st : Store) :
  NoDup (u_email <$> users st) →
  snd (login L env w data st) = st ∧
  ∀ o, fst (login L env w data st) = Resolved o ↔
    ∃ user hashed,
      user ∈ users st ∧ u_email user = login_email data ∧
      u_password user = Some hashed ∧
      compare_native L (login_password data) hashed = true ∧
      let payload := {| userId := u_id user; tokenVersion := u_token_version user |} in
      o = auth_result (omit_password (row_object user))
            (jwt_sign L payload (REFRESH_TOKEN_SECRET env) (REFRESH_TOKEN_EXPIRATION env)
               (Date_now w))
            (jwt_sign L payload (ACCESS_TOKEN_SECRET env) (ACCESS_TOKEN_EXPIRATION env)
               (Date_now w)).
Proof.
  intros Huniq. split.
  { apply (login_leaves_store L env w data st). }
  intros o. rewrite login_unfold.
  destruct (filter _ _) as [|user rest] eqn:Hsel.
  - split; [done|]. intros (user & hashed & Hin & Hemail & _).
    apply filter_nil_iff in Hsel. exfalso. apply Hsel. eauto.
  - assert (Huser := Hsel). apply filter_head_elem in Huser as [Hin Hemail].
    assert (Honly : ∀ u, u ∈ users st → u_email u = login_email data → u = user).
    { intros u Hu He.
      pose proof (filter_unique_key u_email (users st) u Huniq Hu) as Hu1.
      rewrite He, Hsel in Hu1. by injection Hu1. }
    unfold bcrypt_compare. split.
    + destruct (u_password user) as [hashed|] eqn:Hpw; [|done].
      destruct (compare_native _ _ _) eqn:Hcmp; [|done].
      cbn. intros [= <-]. exists user, hashed. split_and!; done.
    + intros (u & hashed & Hu & He & Hpw & Hcmp & ->).
      apply Honly in Hu as ->; [|done]. by rewrite Hpw, Hcmp.
Qed.

(** Witness for X2: ana logs in with her password. *)
Lemma login_resolves_iff_witness :
  NoDup (u_email <$> users Reference.store) ∧
  ∃ o, fst (login Reference.libs Reference.env (Reference.world 1000)
              (mkLoginArgs "a@x.com" "Secret1!") Reference.store) = Resolved o ∧
       o !! "refreshToken" = Some (JStr Reference.ana_refresh_token).
Proof.
  assert (Huniq : NoDup (u_email <$> users Reference.store)).
  { apply (bool_decide_unpack _). vm_compute. exact I. }
  split; [exact Huniq|].
  destruct (login_resolves_iff Reference.libs Reference.env (Reference.world 1000)
              (mkLoginArgs "a@x.com" "Secret1!") Reference.store Huniq) as [_ Hiff].
  eexists. split.
  - apply Hiff. exists Reference.ana, (Reference.hash "Secret1!" 12 "salt").
    split_and!; [left|reflexivity|reflexivity|vm_compute; reflexivity|reflexivity].
  - unfold auth_result. by simplify_map_eq.
Defined.

Lemma register_resolved_free
    (L : Libs) (env : ProcessEnv) (w : World) (data : RegisterArgs) (st : Store)
    (o : gmap string JsVal) :
  fst (register L env w data st) = Resolved o →
  ¬ email_taken (reg_email data) st ∧ ¬ name_taken (reg_name data) st.
Proof.
  rewrite register_unfold. unfold signup. cbn [f_email f_name].
  by repeat case_decide.
Qed.

Lemma register_accepted
    (L : Libs) (env : ProcessEnv) (w : World) (data : RegisterArgs) (st : Store) :
  ¬ email_taken (reg_email data) st → ¬ name_taken (reg_name data) st →
  let row := {| u_id := users_id_seq st;
                u_name := reg_name data;
                u_email := reg_email data;
                u_password := Some (hash_native L (reg_password data) 12 (gen_salt w));
                u_githubId := None;
                u_token_version := 0 |} in
  let payload := {| userId := users_id_seq st; tokenVersion := 0 |} in
  register L env w data st
  = (Resolved (auth_result (omit_password (row_object row))
                 (sign_refresh L env w payload) (sign_access L env w payload)),
     with_row row st).
Proof.
  intros He Hn. rewrite register_unfold. unfold signup. cbn [f_email f_name].
  by rewrite !decide_False.
Qed.

(** X3. [register] resolves exactly when neither the e-mail address nor the
    name is in the table, whatever [confirmPassword] holds. It then appends
    one row, with the next id of the sequence, the bcrypt hash of the password
    at 12 rounds, no GitHub id and token version 0, leaves the rows that were
    there as they were, and returns that row without the password together
    with tokens signed over its id and version 0. *)
Theorem register_resolves_iff
    (L : Libs) (env : ProcessEnv) (w : World) (data : RegisterArgs) (st : Store) :
  let row := {| u_id := users_id_seq st;
                u_name := reg_name data;
                u_email := reg_email data;
                u_password := Some (hash_native L (reg_password data) 12 (gen_salt w));
                u_githubId := None;
                u_token_version := 0 |} in
  let payload := {| userId := users_id_seq st; tokenVersion := 0 |} in
  ((∃ o, fst (register L env w data st) = Resolved o)
     ↔ ¬ email_taken (reg_email data) st ∧ ¬ name_taken (reg_name data) st) ∧
  (¬ email_taken (reg_email data) st → ¬ name_taken (reg_name data) st →
     register L env w data st
     = (Resolved (auth_result (omit_password (row_object row))
                    (jwt_sign L payload (REFRESH_TOKEN_SECRET env)
                       (REFRESH_TOKEN_EXPIRATION env) (Date_now w))
                    (jwt_sign L payload (ACCESS_TOKEN_SECRET env)
                       (ACCESS_TOKEN_EXPIRATION env) (Date_now w))),
        {| users := users st ++ [row]; users_id_seq := users_id_seq st + 1 |})) ∧
  (∀ confirm,
     register L env w {| reg_name := reg_name data; reg_email := reg_email data;
                         reg_password := reg_password data;
                         reg_confirmPassword := confirm |} st
     = register L env w data st).
Proof.
  intros row payload. subst row payload. split_and!.
  - split.
    + intros [o Ho]. by apply register_resolved_free in Ho.
    + intros [He Hn]. rewrite register_accepted by done. by eexists.
  - intros He Hn. by rewrite register_accepted.
  - intros confirm. by rewrite !register_unfold.
Qed.

(** Witness for X3: bob registers on the reference table, with a
    confirmation that differs from his password. *)
Lemma register_resolves_iff_witness :
  ¬ email_taken "b@x.com" Reference.store ∧ ¬ name_taken "bob" Reference.store ∧
  users (snd (register Reference.libs Reference.env (Reference.world 1000)
                (mkRegisterArgs "bob" "b@x.com" "pw" "other") Reference.store))
  = [Reference.ana; Reference.octo;
     {| u_id := 3; u_name := "bob"; u_email := "b@x.com";
        u_password := Some "$2b$12$salt$pw"; u_githubId := None; u_token_version := 0 |}].
Proof.
  assert (He : ¬ email_taken "b@x.com" Reference.store).
  { apply (bool_decide_unpack _). vm_compute. exact I. }
  assert (Hn : ¬ name_taken "bob" Reference.store).
  { apply (bool_decide_unpack _). vm_compute. exact I. }
  split_and!; [exact He|exact Hn|].
  destruct (register_resolves_iff Reference.libs Reference.env (Reference.world 1000)
              (mkRegisterArgs "bob" "b@x.com" "pw" "other") Reference.store)
    as [_ [Hrun _]].
  rewrite (Hrun He Hn). reflexivity.
Defined.

(** X4. A registration that went through can be followed by a login with
    the same e-mail address and password, at any later moment, provided the
    hasher recognises the password in the hash it made of it: the login
    resolves with the user object the registration returned. *)
Theorem register_then_login
    (L : Libs) (env : ProcessEnv) (w w' : World) (data : RegisterArgs) (st : Store)
    (o : gmap string JsVal) :
  fst (register L env w data st) = Resolved o →
  compare_native L (reg_password data)
    (hash_native L (reg_password data) 12 (gen_salt w)) = true →
  ∃ o', fst (login L env w' {| login_email := reg_email data;
                               login_password := reg_password data |}
               (snd (register L env w data st))) = Resolved o' ∧
        o' !! "user" = o !! "user".
Proof.
  intros Hreg Hcmp.
  destruct (register_resolved_free _ _ _ _ _ _ Hreg) as [He Hn].
  rewrite (register_accepted L env w data st He Hn) in Hreg |- *.
  cbn [fst snd] in *. injection Hreg as <-.
  rewrite login_unfold. unfold with_row. cbn [users login_email login_password].
  rewrite filter_snoc_only; [|by apply email_free_filter|done].
  cbn [bcrypt_compare u_password]. rewrite Hcmp.
  eexists. split; [done|]. cbn. by rewrite !auth_result_user.
Qed.

(** Witness for X4: bob registers and logs in. *)
Lemma register_then_login_witness :
  ∃ o', fst (login Reference.libs Reference.env (Reference.world 2000)
               (mkLoginArgs "b@x.com" "pw")
               (snd (register Reference.libs Reference.env (Reference.world 1000)
                       (mkRegisterArgs "bob" "b@x.com" "pw" "pw") Reference.store)))
        = Resolved o' ∧
        ∃ user, o' !! "user" = Some (JObj user) ∧ user !! "name" = Some (JStr "bob").
Proof.
  destruct (register Reference.libs Reference.env (Reference.world 1000)
              (mkRegisterArgs "bob" "b@x.com" "pw" "pw") Reference.store)
    as [out st'] eqn:Hrun.
  assert (Hout : ∃ o, out = Resolved o ∧
                      ∃ user, o !! "user" = Some (JObj user)
                              ∧ user !! "name" = Some (JStr "bob")).
  { revert Hrun.
    rewrite register_accepted; [|apply (bool_decide_unpack _); vm_compute; exact I..].
    intros [= <- _]. eexists. split; [done|]. eexists. split; [apply auth_result_user|].
    unfold omit_password, row_object. by simplify_map_eq. }
  destruct Hout as (o & -> & user & Huser & Hname).
  destruct (register_then_login Reference.libs Reference.env (Reference.world 1000)
              (Reference.world 2000) (mkRegisterArgs "bob" "b@x.com" "pw" "pw")
              Reference.store o) as (o' & Hlogin & Hsame).
  { by rewrite Hrun. }
  { vm_compute. reflexivity. }
  exists o'. rewrite Hrun in Hlogin. split; [exact Hlogin|].
  exists user. rewrite Hsame. split; [exact Huser|exact Hname].
Defined.

Lemma email_taken_with_row (e : string) (u : User) (st : Store) :
  email_taken e (with_row u st) ↔ email_taken e st ∨ u_email u = e.
Proof.
  unfold email_taken, with_row. cbn [users]. rewrite Exists_app, Exists_cons, Exists_nil.
  tauto.
Qed.

Lemma name_taken_with_row (n : string) (u : User) (st : Store) :
  name_taken n (with_row u st) ↔ name_taken n st ∨ u_name u = n.
Proof.
  unfold name_taken, with_row. cbn [users]. rewrite Exists_app, Exists_cons, Exists_nil.
  tauto.
Qed.

(** X5. After a registration that went through, registering again with the
    same e-mail address is refused with the e-mail conflict, whatever the
    name and the password; with another, free e-mail address and the same
    name it is refused with the name conflict. Neither attempt changes the
    table. *)
Theorem register_again_conflicts
    (L : Libs) (env : ProcessEnv) (w w' : World) (data data' : RegisterArgs) (st : Store)
    (o : gmap string JsVal) :
  fst (register L env w data st) = Resolved o →
  let st' := snd (register L env w data st) in
  (reg_email data' = reg_email data →
     register L env w' data' st'
     = (Rejected (AppError 422 "E-mail address is already taken."), st')) ∧
  (reg_email data' ≠ reg_email data → ¬ email_taken (reg_email data') st →
   reg_name data' = reg_name data →
     register L env w' data' st'
     = (Rejected (AppError 422 "Name is already taken."), st')).
Proof.
  intros Hreg st'. subst st'.
  destruct (register_resolved_free _ _ _ _ _ _ Hreg) as [He Hn].
  rewrite (register_accepted L env w data st He Hn). cbn [snd]. split.
  - intros Hsame. rewrite register_unfold. unfold signup. cbn [f_email f_name].
    rewrite decide_True; [done|]. apply email_taken_with_row. right. by rewrite Hsame.
  - intros Hother Hfree Hsame. rewrite register_unfold. unfold signup. cbn [f_email f_name].
    rewrite decide_False.
    + rewrite decide_True; [done|]. apply name_taken_with_row. right. by rewrite Hsame.
    + rewrite email_taken_with_row. cbn. intros [?|?]; [done|]. by apply Hother.
Qed.

(** Witness for X5: bob registers twice. *)
Lemma register_again_conflicts_witness :
  register Reference.libs Reference.env (Reference.world 2000)
    (mkRegisterArgs "bobby" "b@x.com" "pw2" "pw2")
    (snd (register Reference.libs Reference.env (Reference.world 1000)
            (mkRegisterArgs "bob" "b@x.com" "pw" "pw") Reference.store))
  = (Rejected (AppError 422 "E-mail address is already taken."),
     snd (register Reference.libs Reference.env (Reference.world 1000)
            (mkRegisterArgs "bob" "b@x.com" "pw" "pw") Reference.store)).
Proof.
  assert (Ho : ∃ o, fst (register Reference.libs Reference.env (Reference.world 1000)
                           (mkRegisterArgs "bob" "b@x.com" "pw" "pw") Reference.store)
                    = Resolved o).
  { rewrite register_accepted; [by eexists|apply (bool_decide_unpack _); vm_compute; exact I..]. }
  destruct Ho as [o Ho].
  apply (register_again_conflicts Reference.libs Reference.env (Reference.world 1000)
           (Reference.world 2000) (mkRegisterArgs "bob" "b@x.com" "pw" "pw")
           (mkRegisterArgs "bobby" "b@x.com" "pw2" "pw2") Reference.store o Ho).
  reflexivity.
Defined.

(** ** The table over a sequence of requests *)

Lemma run_appends (L : Libs) (env : ProcessEnv) (reqs : list (World * Request)) (st : Store) :
  ∃ added : list User, users (run L env reqs st) = (users st ++ added)%list ∧
           (length added ≤ length reqs)%nat ∧
           users_id_seq (run L env reqs st) = users_id_seq st + Z.of_nat (length added).
Proof.
  revert st. induction reqs as [|[w r] reqs IH]; intros st.
  - exists []. cbn. rewrite app_nil_r. split_and!; [done|done|lia].
  - cbn [run]. destruct (IH (snd (serve L env w r st))) as (added & Husers & Hlen & Hseq).
    destruct (serve_store L env w r st) as [Hsame|(f & _ & _ & _ & Hrow)].
    + rewrite Hsame in Husers, Hseq |- *. exists added. cbn [length].
      split_and!; [done|lia|done].
    + rewrite Hrow in Husers, Hseq |- *. unfold with_row in Husers, Hseq at 2.
      cbn [users users_id_seq] in Husers, Hseq.
      exists (fresh_row f st :: added). rewrite <- app_assoc in Husers.
      cbn [length]. split_and!; [done|lia|lia].
Qed.

(** X6. No request deletes or alters a stored row: after any sequence of
    requests the table is the old table followed by the rows added, at most
    one per request, and the id sequence has advanced by their number. *)
Theorem rows_only_appended
    (L : Libs) (env : ProcessEnv) (reqs : list (World * Request)) (st : Store) :
  ∃ added : list User, users (run L env reqs st) = (users st ++ added)%list ∧
           (length added ≤ length reqs)%nat ∧
           users_id_seq (run L env reqs st) = users_id_seq st + Z.of_nat (length added).
Proof. apply run_appends. Qed.

Lemma refresh_resolved_on_longer_table
    (L : Libs) (env : ProcessEnv) (w : World) (token : string) (st st' : Store)
    (added : list User) (o : gmap string JsVal) :
  users st' = (users st ++ added)%list →
  fst (refreshToken L env w token st) = Resolved o →
  fst (refreshToken L env w token st') = Resolved o.
Proof.
  intros Husers. rewrite !refreshToken_unfold, Husers.
  destruct (jwt_verify _ _ _ _) as [e|p]; [done|].
  rewrite filter_app. by destruct (filter _ (users st)).
Qed.

(** X7. None of the flows invalidates a refresh token: a token that
    [refreshToken] honours on a table is honoured, with the same result, after
    any sequence of requests served in between (logins, registrations,
    refreshes, GitHub logins), the clock being the same. *)
Theorem refresh_survives_requests
    (L : Libs) (env : ProcessEnv) (w : World) (token : string) (st : Store)
    (o : gmap string JsVal) (reqs : list (World * Request)) :
  fst (refreshToken L env w token st) = Resolved o →
  fst (refreshToken L env w token (run L env reqs st)) = Resolved o.
Proof.
  destruct (run_appends L env reqs st) as (added & Husers & _).
  by apply refresh_resolved_on_longer_table with added.
Qed.

(** Witness for X7: ana's refresh token, before and after a registration, a
    login of hers and a refresh. *)
Lemma refresh_survives_requests_witness :
  fst (refreshToken Reference.libs Reference.env (Reference.world 5000)
         Reference.ana_refresh_token
         (run Reference.libs Reference.env
            [(Reference.world 2000, ReqRegister (mkRegisterArgs "bob" "b@x.com" "pw" "pw"));
             (Reference.world 3000, ReqLogin (mkLoginArgs "a@x.com" "Secret1!"));
             (Reference.world 4000, ReqRefresh Reference.ana_refresh_token)]
            Reference.store))
  = Resolved {[ "accessToken" := JStr "access-secret.1.0.5900" ]}.
Proof.
  apply (refresh_survives_requests Reference.libs Reference.env (Reference.world 5000)
           Reference.ana_refresh_token Reference.store).
  vm_compute. reflexivity.
Defined.

(** X8. The refresh token that [login] hands out is one [refreshToken]
    accepts: if the codec, asked later, returns the payload the token was
    signed over, then on the same table, and after any sequence of requests,
    [refreshToken] resolves with an access token signed at that later moment
    over the same user id and token version. *)
Theorem login_then_refresh
    (L : Libs) (env : ProcessEnv) (w w' : World) (data : loginArgs) (st : Store)
    (o : gmap string JsVal) :
  fst (login L env w data st) = Resolved o →
  ∃ user rt,
    user ∈ users st ∧ u_email user = login_email data ∧
    o !! "refreshToken" = Some (JStr rt) ∧
    let p := {| userId := u_id user; tokenVersion := u_token_version user |} in
    (jwt_verify L rt (REFRESH_TOKEN_SECRET env) (Date_now w') = inr p →
     ∀ reqs,
       fst (refreshToken L env w' rt (run L env reqs st))
       = Resolved {[ "accessToken" :=
                       JStr (jwt_sign L p (ACCESS_TOKEN_SECRET env)
                               (ACCESS_TOKEN_EXPIRATION env) (Date_now w')) ]}).
Proof.
  rewrite login_unfold.
  destruct (filter _ _) as [|user rest] eqn:Hsel; [done|].
  apply filter_head_elem in Hsel as [Hin Hemail].
  destruct (bcrypt_compare _ _ _) as [e|[|]]; [done| |done].
  cbn. intros [= <-].
  exists user, (sign_refresh L env w
                  {| userId := u_id user; tokenVersion := u_token_version user |}).
  split_and!; [done|done|by unfold auth_result; simplify_map_eq|].
  intros Hverify reqs.
  destruct (run_appends L env reqs st) as (added & Husers & _).
  apply refresh_resolved_on_longer_table with st added; [done|].
  rewrite refreshToken_unfold, Hverify. cbn [userId tokenVersion].
  destruct (filter _ _) as [|user' rest'] eqn:Hsel'.
  - apply filter_nil_iff in Hsel'. exfalso. apply Hsel'. eauto.
  - apply filter_head_elem in Hsel' as [_ [-> ->]]. done.
Qed.

(** Witness for X8: ana logs in at time 1000 and refreshes at time 5000. *)
Lemma login_then_refresh_witness :
  ∃ o, fst (login Reference.libs Reference.env (Reference.world 1000)
              (mkLoginArgs "a@x.com" "Secret1!") Reference.store) = Resolved o ∧
       o !! "refreshToken" = Some (JStr Reference.ana_refresh_token) ∧
       fst (refreshToken Reference.libs Reference.env (Reference.world 5000)
              Reference.ana_refresh_token Reference.store)
       = Resolved {[ "accessToken" := JStr "access-secret.1.0.5900" ]}.
Proof.
  destruct (login Reference.libs Reference.env (Reference.world 1000)
              (mkLoginArgs "a@x.com" "Secret1!") Reference.store) as [out st'] eqn:Hrun.
  assert (Hout : ∃ o, out = Resolved o).
  { revert Hrun. rewrite login_unfold. intros [= <- _]. by eexists. }
  destruct Hout as [o ->]. exists o. split; [done|].
  destruct (login_then_refresh Reference.libs Reference.env (Reference.world 1000)
              (Reference.world 5000) (mkLoginArgs "a@x.com" "Secret1!")
              Reference.store o) as (user & rt & Hin & Hemail & Hrt & Hrefresh).
  { by rewrite Hrun. }
  assert (user = Reference.ana) as ->.
  { cbn in Hin. apply elem_of_cons in Hin as [->|Hin]; [done|].
    apply elem_of_cons in Hin as [->|Hin]; [discriminate|].
    by apply not_elem_of_nil in Hin. }
  assert (Hsame : o !! "refreshToken" = Some (JStr Reference.ana_refresh_token)).
  { revert Hrun. rewrite login_unfold. intros [= <- _].
    unfold auth_result. by simplify_map_eq. }
  split; [exact Hsame|].
  rewrite Hsame in Hrt. injection Hrt as <-.
  apply (Hrefresh eq_refl []).
Defined.

(** ** githubData: signing up and coming back *)

Section GithubSignup.
Context (L : Libs) (env : ProcessEnv) (w : World) (t : string) (st : Store).
Context (emails : list EmailProps) (primaryEmail : EmailProps) (githubUser : GithubUser).
Hypothesis Hemails : get_user_emails w t = Fulfilled emails.
Hypothesis Hprimary : find primary emails = Some primaryEmail.
Hypothesis Huser : get_user w t = Fulfilled githubUser.
Hypothesis Hunbound : filter (λ u, u_githubId u = Some (id githubUser)) (users st) = [].

Lemma githubData_signup_resolved_free (o : gmap string JsVal) :
  fst (githubData L env w t st) = Resolved o →
  ¬ email_taken (email primaryEmail) st ∧ ¬ name_taken (login_name githubUser) st.
Proof.
  rewrite githubData_unfold, Hemails, Hprimary, Huser, Hunbound.
  unfold signup. cbn [f_email f_name]. by repeat case_decide.
Qed.

Lemma githubData_signup_accepted :
  ¬ email_taken (email primaryEmail) st → ¬ name_taken (login_name githubUser) st →
  let row := {| u_id := users_id_seq st;
                u_name := login_name githubUser;
                u_email := email primaryEmail;
                u_password := None;
                u_githubId := Some (id githubUser);
                u_token_version := 0 |} in
  let payload := {| userId := users_id_seq st; tokenVersion := 0 |} in
  githubData L env w t st
  = (Resolved (auth_result (row_object row)
                 (sign_refresh L env w payload) (sign_access L env w payload)),
     with_row row st).
Proof.
  intros He Hn. rewrite githubData_unfold, Hemails, Hprimary, Huser, Hunbound.
  unfold signup. cbn [f_email f_name]. by rewrite !decide_False.
Qed.

End GithubSignup.

(** X9. For a GitHub identity no row is bound to, [githubData] resolves
    exactly when the primary e-mail address (the first entry flagged primary)
    and the GitHub login are both free. It then appends one row: the next id
    of the sequence, the login as name, that address as e-mail, no password,
    the GitHub id, token version 0; the rows that were there stay as they
    were. *)
Theorem githubData_signup_iff
    (L : Libs) (env : ProcessEnv) (w : World) (t : string) (st : Store)
    (emails : list EmailProps) (primaryEmail : EmailProps) (githubUser : GithubUser) :
  get_user_emails w t = Fulfilled emails →
  find primary emails = Some primaryEmail →
  get_user w t = Fulfilled githubUser →
  filter (λ u, u_githubId u = Some (id githubUser)) (users st) = [] →
  ((∃ o, fst (githubData L env w t st) = Resolved o)
     ↔ ¬ email_taken (email primaryEmail) st ∧ ¬ name_taken (login_name githubUser) st) ∧
  (¬ email_taken (email primaryEmail) st → ¬ name_taken (login_name githubUser) st →
     snd (githubData L env w t st)
     = {| users := users st ++ [ {| u_id := users_id_seq st;
                                    u_name := login_name githubUser;
                                    u_email := email primaryEmail;
                                    u_password := None;
                                    u_githubId := Some (id githubUser);
                                    u_token_version := 0 |} ];
          users_id_seq := users_id_seq st + 1 |}).
Proof.
  intros Hemails Hprimary Huser Hunbound. split.
  - split.
    + intros [o Ho]. by eapply githubData_signup_resolved_free.
    + intros [He Hn]. erewrite githubData_signup_accepted by done. by eexists.
  - intros He Hn. by erewrite githubData_signup_accepted.
Qed.

(** Witness for X9: the first GitHub login of the newcomer, whose second
    address is the primary one. *)
Lemma githubData_signup_iff_witness :
  users (snd (githubData Reference.libs Reference.env (Reference.world 1000) "gh-new"
                Reference.store))
  = [Reference.ana; Reference.octo;
     {| u_id := 3; u_name := "newcomer"; u_email := "new@y.org";
        u_password := None; u_githubId := Some 77; u_token_version := 0 |}].
Proof.
  destruct (githubData_signup_iff Reference.libs Reference.env (Reference.world 1000)
              "gh-new" Reference.store
              [mkEmail "old@y.org" false true "private"; mkEmail "new@y.org" true true "public"]
              (mkEmail "new@y.org" true true "public") (mkGithubUser 77 "newcomer")
              eq_refl eq_refl eq_refl eq_refl) as [_ Hrun].
  rewrite Hrun; [reflexivity|apply (bool_decide_unpack _); vm_compute; exact I..].
Defined.

(** X10. Once a GitHub identity has signed up, a later [githubData] call
    for the same GitHub id is a login: it resolves with the row of the signup
    (now without the password property), adds nothing to the table, and does
    not look at e-mail address or login, which may have changed at GitHub or
    be taken by others in the meantime. *)
Theorem githubData_again_is_login
    (L : Libs) (env : ProcessEnv) (w w' : World) (t t' : string) (st : Store)
    (emails emails' : list EmailProps) (primaryEmail primaryEmail' : EmailProps)
    (githubUser githubUser' : GithubUser) (o : gmap string JsVal) :
  get_user_emails w t = Fulfilled emails →
  find primary emails = Some primaryEmail →
  get_user w t = Fulfilled githubUser →
  filter (λ u, u_githubId u = Some (id githubUser)) (users st) = [] →
  fst (githubData L env w t st) = Resolved o →
  get_user_emails w' t' = Fulfilled emails' →
  find primary emails' = Some primaryEmail' →
  get_user w' t' = Fulfilled githubUser' →
  id githubUser' = id githubUser →
  let st' := snd (githubData L env w t st) in
  ∃ o' user,
    githubData L env w' t' st' = (Resolved o', st') ∧
    o !! "user" = Some (JObj user) ∧
    o' !! "user" = Some (JObj (omit_password user)).
Proof.
  intros Hemails Hprimary Huser Hunbound Hres Hemails' Hprimary' Huser' Hid st'. subst st'.
  destruct (githubData_signup_resolved_free L env w t st emails primaryEmail githubUser
              Hemails Hprimary Huser Hunbound o Hres) as [He Hn].
  revert Hres.
  rewrite (githubData_signup_accepted L env w t st emails primaryEmail githubUser
             Hemails Hprimary Huser Hunbound He Hn).
  cbn [fst snd]. intros [= <-].
  rewrite githubData_unfold, Hemails', Hprimary', Huser', Hid.
  unfold with_row at 1. cbn [users].
  rewrite filter_snoc_only; [|done..].
  eexists _, _. split_and!; [done|apply auth_result_user|apply auth_result_user].
Qed.

(** Witness for X10: the newcomer comes back. *)
Lemma githubData_again_is_login_witness :
  ∃ o', githubData Reference.libs Reference.env (Reference.world 2000) "gh-new"
          (snd (githubData Reference.libs Reference.env (Reference.world 1000) "gh-new"
                  Reference.store))
        = (Resolved o',
           snd (githubData Reference.libs Reference.env (Reference.world 1000) "gh-new"
                  Reference.store)).
Proof.
  assert (Ho : ∃ o, fst (githubData Reference.libs Reference.env (Reference.world 1000)
                           "gh-new" Reference.store) = Resolved o).
  { eexists. vm_compute. reflexivity. }
  destruct Ho as [o Ho].
  destruct (githubData_again_is_login Reference.libs Reference.env (Reference.world 1000)
              (Reference.world 2000) "gh-new" "gh-new" Reference.store
              _ _ _ _ _ _ o eq_refl eq_refl eq_refl eq_refl Ho eq_refl eq_refl eq_refl eq_refl)
    as (o' & user & Hrun & _).
  exists o'. exact Hrun.
Defined.

(** X11. An account created by [githubData] has no password, and [login]
    with its e-mail address rejects with the bare [Error] of [bcrypt.compare]
    whatever password is offered: no password opens it, and the failure is
    not the 401 AppError. *)
Theorem github_account_password_login
    (L : Libs) (env : ProcessEnv) (w w' : World) (t : string) (st : Store)
    (emails : list EmailProps) (primaryEmail : EmailProps) (githubUser : GithubUser)
    (o : gmap string JsVal) (password : string) :
  get_user_emails w t = Fulfilled emails →
  find primary emails = Some primaryEmail →
  get_user w t = Fulfilled githubUser →
  filter (λ u, u_githubId u = Some (id githubUser)) (users st) = [] →
  fst (githubData L env w t st) = Resolved o →
  let st' := snd (githubData L env w t st) in
  login L env w' {| login_email := email primaryEmail; login_password := password |} st'
  = (Rejected (Error "data and hash arguments required"), st').
Proof.
  intros Hemails Hprimary Huser Hunbound Hres st'. subst st'.
  destruct (githubData_signup_resolved_free L env w t st emails primaryEmail githubUser
              Hemails Hprimary Huser Hunbound o Hres) as [He Hn].
  rewrite (githubData_signup_accepted L env w t st emails primaryEmail githubUser
             Hemails Hprimary Huser Hunbound He Hn).
  cbn [snd]. eapply login_without_password.
  - unfold with_row. cbn [users login_email].
    apply filter_snoc_only; [by apply email_free_filter|done].
  - reflexivity.
Qed.

(** Witness for X11: the newcomer tries a password. *)
Lemma github_account_password_login_witness :
  fst (login Reference.libs Reference.env (Reference.world 2000)
         (mkLoginArgs "new@y.org" "guess")
         (snd (githubData Reference.libs Reference.env (Reference.world 1000) "gh-new"
                 Reference.store)))
  = Rejected (Error "data and hash arguments required").
Proof.
  assert (Ho : ∃ o, fst (githubData Reference.libs Reference.env (Reference.world 1000)
                           "gh-new" Reference.store) = Resolved o).
  { eexists. vm_compute. reflexivity. }
  destruct Ho as [o Ho].
  exact (f_equal fst
           (github_account_password_login Reference.libs Reference.env
              (Reference.world 1000) (Reference.world 2000) "gh-new" Reference.store
              _ (mkEmail "new@y.org" true true "public") _ o "guess"
              eq_refl eq_refl eq_refl eq_refl Ho)).
Defined.

(** ** What the flows reject with *)



Lemma login_resolved_on_longer_table
    (L : Libs) (env : ProcessEnv) (w : World) (data : loginArgs) (st st' : Store)
    (added : list User) (o : gmap string JsVal) :
  users st' = (users st ++ added)%list →
  fst (login L env w data st) = Resolved o →
  fst (login L env w data st') = Resolved o.
Proof.
  intros Husers. rewrite !login_unfold, Husers, filter_app.
  destruct (filter _ (users st)) as [|user rest]; [done|].
  rewrite <- app_comm_cons.
  by destruct (bcrypt_compare _ _ _) as [e|[|]].
Qed.

(** X13. An account that can log in keeps being able to: a login that
    resolves on a table resolves, with the same result, after any sequence of
    requests served in between, the clock being the same. No request changes
    a stored password or removes a user. *)
Theorem login_survives_requests
    (L : Libs) (env : ProcessEnv) (w : World) (data : loginArgs) (st : Store)
    (o : gmap string JsVal) (reqs : list (World * Request)) :
  fst (login L env w data st) = Resolved o →
  fst (login L env w data (run L env reqs st)) = Resolved o.
Proof.
  destruct (run_appends L env reqs st) as (added & Husers & _).
  by apply login_resolved_on_longer_table with added.
Qed.

(** Witness for X13: ana logs in after bob has registered and the newcomer
    has signed up through GitHub. *)
Lemma login_survives_requests_witness :
  ∃ o, fst (login Reference.libs Reference.env (Reference.world 5000)
              (mkLoginArgs "a@x.com" "Secret1!")
              (run Reference.libs Reference.env
                 [(Reference.world 2000, ReqRegister (mkRegisterArgs "bob" "b@x.com" "pw" "pw"));
                  (Reference.world 3000, ReqGithubData "gh-new")]
                 Reference.store)) = Resolved o.
Proof.
  assert (Ho : ∃ o, fst (login Reference.libs Reference.env (Reference.world 5000)
                           (mkLoginArgs "a@x.com" "Secret1!") Reference.store) = Resolved o).
  { rewrite login_unfold. by eexists. }
  destruct Ho as [o Ho]. exists o.
  apply (login_survives_requests Reference.libs Reference.env (Reference.world 5000)
           (mkLoginArgs "a@x.com" "Secret1!") Reference.store o _ Ho).
Defined.
